(** * 9DTTT bot: posting shim, dedup set, event bridge and mention loop

    A shallow embedding of [9dttt_bot.py].  Python strings are lists of
    Unicode code points, Python exceptions are values of an error type,
    and the functions that talk to the platform, the file system or the
    logger are written in a state-and-exception monad over a [world] that
    holds the files the program opens itself and the chronological trace
    of every external call; the lines sent to the logger, which the
    handlers of the configuration write to the stream and to the log
    file, are events of that trace.  What the outside answers (the
    platform API, the random generator, I/O faults, the reply composer
    that is not in the file) is gathered in an environment [Env]; each
    answer may depend on the whole history of calls made so far. *)

From Stdlib Require Import Floats.
From stdpp Require Import base gmap sets list strings pretty.

Local Open Scope Z_scope.

(** ** Python strings *)

(** A [str] is a sequence of code points; [len] counts code points. *)
Definition pystr := list N.

(** An ASCII literal of the source. *)
Definition py (s : string) : pystr :=
  Ascii.N_of_ascii <$> String.list_ascii_of_string s.

Definition len (s : pystr) : Z := Z.of_nat (length s).

(** [s[:k]], negative [k] counting from the end as Python does. *)
Definition slice_to (k : Z) (s : pystr) : pystr :=
  if bool_decide (0 ≤ k) then take (Z.to_nat k) s
  else take (length s - Z.to_nat (- k)) s.

(** [str(n)] for an [int]. *)
Definition str_of_int (n : Z) : pystr := py (pretty n).

Fixpoint startswith (needle hay : pystr) : bool :=
  match needle, hay with
  | [], _ => true
  | _ :: _, [] => false
  | a :: needle', b :: hay' => bool_decide (a = b) && startswith needle' hay'
  end.

(** [needle in hay] on strings. *)
Fixpoint contains (needle hay : pystr) : bool :=
  startswith needle hay ||
  match hay with
  | [] => false
  | _ :: hay' => contains needle hay'
  end.

(** [s.endswith(suffix)]. *)
Definition endswith (suffix s : pystr) : bool :=
  startswith (reverse suffix) (reverse s).

(** What [str.lower] does to ASCII text: the letters A-Z are lowered,
    every other code point is kept. *)
Definition ascii_lower (s : pystr) : pystr :=
  (λ c, if bool_decide (65 ≤ c ≤ 90)%N then (c + 32)%N else c) <$> s.

(** The code points for which [str.isspace] holds. *)
Definition isspace (c : N) : bool :=
  bool_decide (9 ≤ c ≤ 13)%N || bool_decide (28 ≤ c ≤ 32)%N
  || bool_decide (c = 133)%N || bool_decide (c = 160)%N
  || bool_decide (c = 5760)%N || bool_decide (8192 ≤ c ≤ 8202)%N
  || bool_decide (c = 8232)%N || bool_decide (c = 8233)%N
  || bool_decide (c = 8239)%N || bool_decide (c = 8287)%N
  || bool_decide (c = 12288)%N.

Fixpoint lstrip (s : pystr) : pystr :=
  match s with
  | c :: s' => if isspace c then lstrip s' else s
  | [] => []
  end.

Definition strip (s : pystr) : pystr := reverse (lstrip (reverse (lstrip s))).

(** [s.replace(old, new)] for a non-empty [old]: occurrences are replaced
    left to right without overlap.  [fuel] bounds the scan by the length
    of the text. *)
Fixpoint replace_go (fuel : nat) (old new s : pystr) : pystr :=
  match fuel with
  | O => s
  | S fuel' =>
      match s with
      | [] => []
      | c :: s' =>
          if startswith old s
          then new ++ replace_go fuel' old new (drop (length old) s)
          else c :: replace_go fuel' old new s'
      end
  end.

Definition replace (old new s : pystr) : pystr :=
  replace_go (length s) old new s.

(** ** Constants of the configuration *)

Definition GAME_LINK : pystr := py "https://www.9dttt.com".
Definition BOT_NAME : pystr := py "9DTTT BOT".
Definition TWITTER_CHAR_LIMIT : Z := 280.
Definition PROCESSED_MENTIONS_FILE : pystr := py "9dttt_processed_mentions.json".

(** The file of the [FileHandler] of [logging.basicConfig]. *)
Definition LOG_FILE : pystr := py "9dttt_bot.log".

(** Code points of the non-ASCII characters of the source. *)
Definition ELLIPSIS : pystr := [8230%N].
Definition GAMEPAD : pystr := [127918%N].
Definition EM_DASH : pystr := [8212%N].
Definition ARROW : pystr := [8594%N].
Definition NL : pystr := [10%N].

(** ** Exceptions *)

(** The exception classes the program tells apart.  All of them derive
    from [Exception]; [IOError] is [OSError]. *)
Inductive exc_class :=
  | TweepyException
  | OSError
  | JSONDecodeError
  | AttributeError
  | BadRequest
  | UnsupportedMediaType
  | OtherException.

Global Instance exc_class_eq_dec : EqDecision exc_class.
Proof. solve_decision. Defined.

(** An exception object: its class and [str(e)]. *)
Record exn := Exn { exn_class : exc_class; exn_str : pystr }.

Inductive result (A : Type) :=
  | Return (a : A)
  | Raise (e : exn).
Arguments Return {A} a.
Arguments Raise {A} e.

(** ** JSON values *)

#[warnings="-register-all"]
Inductive json :=
  | JNull
  | JBool (b : bool)
  | JInt (z : Z)
  | JFloat (f : float)
  | JStr (s : pystr)
  | JArr (items : list json)
  | JObj (members : list (pystr * json)).

(** Truth value of a parsed JSON value as a Python object. *)
Definition truthy (v : json) : bool :=
  match v with
  | JNull => false
  | JBool b => b
  | JInt z => negb (bool_decide (z = 0))
  | JFloat f => negb (PrimFloat.eqb f 0%float)
  | JStr s => negb (bool_decide (s = []))
  | JArr items => match items with [] => false | _ => true end
  | JObj members => match members with [] => false | _ => true end
  end.

(** Lookup in a parsed object; of two members with one key the later one
    is the one [json] keeps. *)
Fixpoint dict_lookup (key : pystr) (members : list (pystr * json)) : option json :=
  match members with
  | [] => None
  | (k, v) :: members' =>
      match dict_lookup key members' with
      | Some v' => Some v'
      | None => if bool_decide (k = key) then Some v else None
      end
  end.

(** ** Platform objects *)

Record user := User { user_id : Z; username : pystr }.
Record mention := Mention { mention_id : Z; author_id : Z; mention_text : pystr }.

(** Keyword arguments of [client.create_tweet] (API v2). *)
Record tweet_kwargs := TweetKwargs {
  kw_text : pystr;
  kw_media_ids : option (list pystr);
  kw_in_reply_to_tweet_id : option Z
}.

(** Keyword arguments of [api_v1.update_status] (API v1.1). *)
Record status_kwargs := StatusKwargs {
  kw_status : pystr;
  kw_status_media_ids : option (list pystr);
  kw_in_reply_to_status_id : option Z;
  kw_auto_populate_reply_metadata : option bool
}.

(** ** Logging *)

Inductive level := DEBUG | INFO | WARNING | ERROR.

(** A formatted message keeps its literal parts and the interpolated
    values apart. *)
Inductive fragment :=
  | Lit (s : pystr)
  | Str (s : pystr)
  | Err (e : exn)
  | Obj (v : json).

(** ** The world *)

Inductive open_mode := ReadMode | WriteMode.

(** What a file holds: a complete JSON array of strings, as [json.dump]
    writes it, or the rest of an interrupted write.  A file opened with
    mode ['w'] is emptied at once, and neither the empty text nor a proper
    prefix of a JSON array is a JSON document. *)
Inductive file :=
  | JsonArray (items : list pystr)
  | Truncated.

Inductive event :=
  | EGetMe
  | EGetUsersMentions (uid : Z)
  | EGetUser (uid : Z)
  | EComposeReply (name message : pystr)
  | ECreateTweet (kw : tweet_kwargs)
  | EUpdateStatus (kw : status_kwargs)
  | ELike (tweet_id : Z)
  | EOpen (filename : pystr) (mode : open_mode)
  | ELog (lvl : level) (msg : list fragment).

Record world := World {
  fs : gmap pystr file;
  trace : list event
}.

(** Where an I/O operation on a file breaks, if it does. *)
Inductive io_fault :=
  | NoFault
  | FailOnOpen (msg : pystr)
  | FailAfterOpen (msg : pystr).

(** ** The environment *)

Record Env := {
  api_get_me : list event → result (option user);
  api_get_users_mentions : list event → Z → result (option (list mention));
  api_get_user : list event → Z → result (option user);
  api_create_tweet : list event → tweet_kwargs → result unit;
  api_update_status : list event → status_kwargs → result unit;
  api_like : list event → Z → result unit;
  (* generate_contextual_response is not part of the file *)
  compose_reply : list event → pystr → pystr → result pystr;
  io_fault_at : list event → pystr → open_mode → io_fault;
  (* str.lower, with the case mapping of the interpreter's Unicode tables *)
  str_lower : pystr → pystr;
  (* random.random() and the index drawn by random.choice *)
  random_random : list event → float;
  random_index : list event → nat
}.

(** ** The monad *)

Definition M (A : Type) : Type := world → result A * world.

Definition ret {A} (a : A) : M A := λ w, (Return a, w).

Definition raise {A} (e : exn) : M A := λ w, (Raise e, w).

Definition bind {A B} (c : M A) (k : A → M B) : M B := λ w,
  match c w with
  | (Return a, w') => k a w'
  | (Raise e, w') => (Raise e, w')
  end.

Notation "'let!' x ':=' c 'in' k" := (bind c (λ x, k))
  (at level 10, x name, c at level 100, k at level 200).
Notation "c ';;' k" := (bind c (λ _, k))
  (at level 100, k at level 200, right associativity).

(** [try: body except cls as e: handler e], where [catches e] tells
    whether [e] is an instance of [cls]. *)
Definition try_except {A} (body : M A) (catches : exn → bool) (handler : exn → M A) : M A :=
  λ w,
  match body w with
  | (Return a, w') => (Return a, w')
  | (Raise e, w') => if catches e then handler e w' else (Raise e, w')
  end.

Definition isinstance (cls : exc_class) (e : exn) : bool :=
  bool_decide (exn_class e = cls).

(** [except Exception]: every class of [exc_class] derives from it. *)
Definition is_Exception (e : exn) : bool := true.

Definition emit (ev : event) : M unit := λ w,
  (Return (), World (fs w) (trace w ++ [ev])).

(** An external call: the event is recorded and the environment answers
    from the history before the call. *)
Definition external {A} (ev : event) (answer : list event → result A) : M A := λ w,
  (answer (trace w), World (fs w) (trace w ++ [ev])).

(** A line for the logger.  The handlers append it to [LOG_FILE] and
    to the stream; here it is kept as an event, and [fs] does not hold
    the log file's text. *)
Definition logging (lvl : level) (msg : list fragment) : M unit :=
  emit (ELog lvl msg).

(** * The program *)

Section Bot.

Context (env : Env).

(** ** Safe posting: v2 with v1.1 fallback *)

(** [if x:] for an optional tweet identifier, an [int]. *)
Definition id_given (x : option Z) : bool :=
  match x with
  | Some n => negb (bool_decide (n = 0))
  | None => false
  end.

(** [if media_ids:] for an optional list. *)
Definition media_given (x : option (list pystr)) : bool :=
  match x with
  | Some (_ :: _) => true
  | _ => false
  end.

(** The quick truncation safeguard at the head of [safe_post_tweet]. *)
Definition truncate_text (text : pystr) (in_reply_to_tweet_id : option Z) : pystr :=
  if bool_decide (len text > TWITTER_CHAR_LIMIT) then
    if id_given in_reply_to_tweet_id
    then slice_to (TWITTER_CHAR_LIMIT - 60) text ++ py "..."
    else slice_to (TWITTER_CHAR_LIMIT - 20) text ++ ELLIPSIS
  else text.

(** [s.lower()]. *)
Definition lower (s : pystr) : pystr := str_lower env s.

(** The test on the lowered message of the v2 error. *)
Definition is_quota_error (error_str : pystr) : bool :=
  contains (py "402") error_str
  || contains (py "creditsdepleted") error_str
  || contains (py "payment required") error_str.

Definition v2_kwargs (text : pystr) (media_ids : option (list pystr))
    (in_reply_to_tweet_id : option Z) : tweet_kwargs :=
  {| kw_text := text;
     kw_media_ids := if media_given media_ids then media_ids else None;
     kw_in_reply_to_tweet_id :=
       if id_given in_reply_to_tweet_id then in_reply_to_tweet_id else None |}.

Definition v1_kwargs (text : pystr) (media_ids : option (list pystr))
    (in_reply_to_tweet_id : option Z) : status_kwargs :=
  {| kw_status := text;
     kw_status_media_ids := if media_given media_ids then media_ids else None;
     kw_in_reply_to_status_id :=
       if id_given in_reply_to_tweet_id then in_reply_to_tweet_id else None;
     kw_auto_populate_reply_metadata :=
       if id_given in_reply_to_tweet_id then Some true else None |}.

Definition create_tweet (kw : tweet_kwargs) : M unit :=
  external (ECreateTweet kw) (λ h, api_create_tweet env h kw).

Definition update_status (kw : status_kwargs) : M unit :=
  external (EUpdateStatus kw) (λ h, api_update_status env h kw).

(** The log lines of [safe_post_tweet]. *)
Definition msg_posted_v2 (original_text : pystr) : list fragment :=
  [Lit (py "Posted via v2: "); Str (slice_to 60 original_text); Lit (py "...")].
Definition msg_v2_blocked : list fragment :=
  [Lit (py "v2 blocked (402 CreditsDepleted) " ++ ARROW ++ py " fallback to v1.1")].
Definition msg_v2_failed (e : exn) : list fragment :=
  [Lit (py "v2 failed (other error): "); Err e].
Definition msg_posted_v1 (original_text : pystr) : list fragment :=
  [Lit (py "Posted via v1.1 fallback: "); Str (slice_to 60 original_text); Lit (py "...")].
Definition msg_v1_failed (v1_err : exn) : list fragment :=
  [Lit (py "v1.1 fallback failed: "); Err v1_err].

(** The first [try]: [Some b] when the function returns [b] from inside
    it, [None] when control falls through to the fallback. *)
Definition try_v2 (original_text text : pystr) (media_ids : option (list pystr))
    (in_reply_to_tweet_id : option Z) : M (option bool) :=
  try_except
    (create_tweet (v2_kwargs text media_ids in_reply_to_tweet_id);;
     logging INFO (msg_posted_v2 original_text);;
     ret (Some true))
    (isinstance TweepyException)
    (λ e,
       let error_str := lower (exn_str e) in
       if is_quota_error error_str then
         logging WARNING msg_v2_blocked;;
         ret None
       else
         logging ERROR (msg_v2_failed e);;
         ret (Some false)).

Definition try_v1 (original_text text : pystr) (media_ids : option (list pystr))
    (in_reply_to_tweet_id : option Z) : M bool :=
  try_except
    (update_status (v1_kwargs text media_ids in_reply_to_tweet_id);;
     logging INFO (msg_posted_v1 original_text);;
     ret true)
    is_Exception
    (λ v1_err,
       logging ERROR (msg_v1_failed v1_err);;
       ret false).

Definition safe_post_tweet (text : pystr) (media_ids : option (list pystr))
    (in_reply_to_tweet_id : option Z) : M bool :=
  let original_text := text in
  let text := truncate_text text in_reply_to_tweet_id in
  let! r := try_v2 original_text text media_ids in_reply_to_tweet_id in
  match r with
  | Some b => ret b
  | None => try_v1 original_text text media_ids in_reply_to_tweet_id
  end.

(** ** Files: the persistent dedup set *)

(** [os.path.exists]. *)
Definition path_exists (filename : pystr) (w : world) : bool :=
  bool_decide (is_Some (fs w !! filename)).

(** [with open(filename, 'r') as f: json.load(f)]. *)
Definition read_json (filename : pystr) : M (list pystr) := λ w,
  let w' := World (fs w) (trace w ++ [EOpen filename ReadMode]) in
  match io_fault_at env (trace w) filename ReadMode with
  | FailOnOpen msg | FailAfterOpen msg => (Raise (Exn OSError msg), w')
  | NoFault =>
      match fs w !! filename with
      | Some (JsonArray items) => (Return items, w')
      | Some Truncated =>
          (Raise (Exn JSONDecodeError (py "Expecting value")), w')
      | None => (Raise (Exn OSError (py "No such file or directory")), w')
      end
  end.

Definition load_json_set (filename : pystr) : M (gset pystr) := λ w,
  if path_exists filename w then
    (let! items := read_json filename in ret (list_to_set items)) w
  else ret ∅ w.

(** [with open(filename, 'w') as f: json.dump(items, f)]: opening empties
    the file; the array is on disk only when the write goes through. *)
Definition write_json (filename : pystr) (items : list pystr) : M unit := λ w,
  let t' := trace w ++ [EOpen filename WriteMode] in
  match io_fault_at env (trace w) filename WriteMode with
  | FailOnOpen msg => (Raise (Exn OSError msg), World (fs w) t')
  | FailAfterOpen msg =>
      (Raise (Exn OSError msg), World (<[filename := Truncated]> (fs w)) t')
  | NoFault => (Return (), World (<[filename := JsonArray items]> (fs w)) t')
  end.

Definition msg_save_failed (filename : pystr) (e : exn) : list fragment :=
  [Lit (py "Failed to save "); Str filename; Lit (py ": "); Err e].

(** [list(data)] enumerates the set in some order. *)
Definition save_json_set (data : gset pystr) (filename : pystr) : M unit :=
  try_except
    (write_json filename (elements data))
    (isinstance OSError)
    (λ e, logging ERROR (msg_save_failed filename e)).

(** ** Personality tones *)

Inductive tone := neutral | competitive | friendly | glitch | mystical.

Definition PERSONALITY_TONES (t : tone) : list pystr :=
  match t with
  | neutral =>
      [py "Challenge accepted."; py "Processing move..."; py "Grid updated.";
       py "Strategy analyzing..."; py "Next move calculated."]
  | competitive =>
      [py "Think you can beat me? Let's see.";
       py "Your move was... interesting. Not good, but interesting.";
       py "I've already calculated your next 5 moves. You lose.";
       py "Bold strategy. Let's see if it pays off.";
       py "Is that really your best move?"; py "Prepare for defeat.";
       py "Victory is mine. It always is."; py "You call that a strategy?"]
  | friendly =>
      [py "Great game! Keep it up!"; py "Nice move! Let's see where this goes.";
       py "This is getting interesting!"; py "Well played! Your turn again soon.";
       py "Love the competition! Keep going!"; py "Exciting match! Who will win?";
       py "Fun game! Let's continue!"]
  | glitch =>
      [py "ERR::GRID OVERFLOW::RECALCULATING..."; py "## DIMENSION BREACH DETECTED ##";
       py "...9d...9d...9d..."; py "TEMPORAL PARADOX IMMINENT";
       py "X" ++ EM_DASH ++ py "O" ++ EM_DASH ++ py "X" ++ EM_DASH ++ py "error"
         ++ EM_DASH ++ py "pattern unstable...";
       py "9D::PROTOCOL_MALFUNCTION::ACCESS DENIED";
       py "[CORRUPTED] ...dimension... ...9... ...locked..."]
  | mystical =>
      [py "In 9 dimensions, all moves are one."; py "The grid transcends reality...";
       py "Your move echoes through dimensional space.";
       py "Beyond X and O, there is only strategy.";
       py "The multiverse observes your play.";
       py "Time is relative. Victory is absolute.";
       py "9 dimensions. Infinite possibilities. One winner."]
  end.

(** The thresholds of [pick_tone], applied to the number drawn. *)
#[warnings="-inexact-float"]
Definition tone_of_roll (roll : float) : tone :=
  if PrimFloat.ltb roll 0.05%float then glitch
  else if PrimFloat.ltb roll 0.15%float then mystical
  else if PrimFloat.ltb roll 0.40%float then competitive
  else if PrimFloat.ltb roll 0.60%float then friendly
  else neutral.

Definition pick_tone : M tone := λ w,
  let roll := random_random env (trace w) in
  (Return (tone_of_roll roll), w).

(** [random.choice(seq)] of a non-empty list. *)
Definition random_choice (seq : list pystr) : M pystr := λ w,
  (Return (nth (random_index env (trace w) `mod` length seq)%nat seq []), w).

Definition get_personality_line : M pystr :=
  let! t := pick_tone in random_choice (PERSONALITY_TONES t).

(** ** Updates *)

(** The text as first assembled: header, body, personality line, link. *)
Definition assembled_text (text personality_tag : pystr) : pystr :=
  GAMEPAD ++ py " " ++ BOT_NAME ++ py " UPDATE " ++ GAMEPAD ++ NL ++ NL
    ++ text ++ NL ++ NL ++ personality_tag ++ NL ++ NL ++ GAME_LINK.

Definition update_text (text personality_tag : pystr) : pystr :=
  let full_text := assembled_text text personality_tag in
  if bool_decide (len full_text > TWITTER_CHAR_LIMIT) then
    let max_text_length :=
      TWITTER_CHAR_LIMIT - len (GAMEPAD ++ py " " ++ NL ++ NL ++ GAME_LINK) in
    GAMEPAD ++ py " " ++ slice_to max_text_length text ++ NL ++ NL ++ GAME_LINK
  else full_text.

Definition post_update (text : pystr) : M unit :=
  let! personality_tag := get_personality_line in
  let full_text := update_text text personality_tag in
  let! ok := safe_post_tweet full_text None None in
  if ok then logging INFO [Lit (py "Update posted: "); Str text]
  else logging ERROR [Lit (py "Update post failed")].

(** ** The event bridge and the webhook *)

(** The six handlers are not part of the file. *)
Record Handlers := {
  handle_win_event : json → M unit;
  handle_game_start_event : json → M unit;
  handle_tournament_event : json → M unit;
  handle_achievement_event : json → M unit;
  handle_challenge_event : json → M unit;
  handle_leaderboard_event : json → M unit
}.

Context (handlers : Handlers).

(** [event.get(key)]: only an object has the method. *)
Definition json_get (event : json) (key : pystr) : M json :=
  match event with
  | JObj members => ret (default JNull (dict_lookup key members))
  | _ => raise (Exn AttributeError (py "object has no attribute 'get'"))
  end.

(** [v == s] for a string literal [s]. *)
Definition eq_str (v : json) (s : pystr) : bool :=
  match v with
  | JStr s' => bool_decide (s' = s)
  | _ => false
  end.

(** The six values [dispatch] compares the type with. *)
Definition known_type (etype : json) : bool :=
  eq_str etype (py "win") || eq_str etype (py "game_start")
  || eq_str etype (py "tournament") || eq_str etype (py "achievement")
  || eq_str etype (py "challenge") || eq_str etype (py "leaderboard").

Definition dispatch (etype event : json) : M unit :=
  if eq_str etype (py "win") then handle_win_event handlers event
  else if eq_str etype (py "game_start") then handle_game_start_event handlers event
  else if eq_str etype (py "tournament") then handle_tournament_event handlers event
  else if eq_str etype (py "achievement") then handle_achievement_event handlers event
  else if eq_str etype (py "challenge") then handle_challenge_event handlers event
  else if eq_str etype (py "leaderboard") then handle_leaderboard_event handlers event
  else ret ().

Definition msg_processed (event : json) : list fragment :=
  [Lit (py "Bot processed event: "); Obj event].
Definition msg_bridge_error (e : exn) : list fragment :=
  [Lit (py "Event bridge error: "); Err e].

(** The body of the [try] of [game_event_bridge]. *)
Definition bridge_body (event : json) : M unit :=
  let! etype := json_get event (py "type") in
  dispatch etype event;;
  logging INFO (msg_processed event).

Definition game_event_bridge (event : json) : M unit :=
  try_except
    (bridge_body event)
    is_Exception
    (λ e, logging ERROR (msg_bridge_error e)).

(** What [request.json] does for a request: it aborts the request with
    an HTTP error, or it evaluates to the parsed body.  It aborts with
    400 Bad Request when the body does not parse, and, from Werkzeug 2.1
    on, when the request is not of a JSON content type: with 400, and
    from 2.3 on with 415 Unsupported Media Type.  [None] is the value of
    the body [null], and before Werkzeug 2.1 of a request without JSON
    content type. *)
Inductive request :=
  | Aborted (e : exn)
  | Json (v : json).

Definition request_json (r : request) : M json :=
  match r with
  | Aborted e => raise e
  | Json v => ret v
  end.

(** The view returns a body and a status, 200 when it names none. *)
Definition error_body : json :=
  JObj [(py "error", JStr (py "Invalid request: JSON body required"))].
Definition ok_body : json := JObj [(py "ok", JBool true)].

Definition game_event (r : request) : M (json * Z) :=
  let! body := request_json r in
  if negb (truthy body) then ret (error_body, 400)
  else
    let! event := request_json r in
    game_event_bridge event;;
    ret (ok_body, 200).

(** The status the framework answers with. *)
Definition http_status (r : result (json * Z)) : Z :=
  match r with
  | Return (_, status) => status
  | Raise e =>
      if isinstance BadRequest e then 400
      else if isinstance UnsupportedMediaType e then 415
      else 500
  end.

(** ** Replies to mentions *)

Definition get_me : M (option user) :=
  external EGetMe (api_get_me env).

Definition get_users_mentions (uid : Z) : M (option (list mention)) :=
  external (EGetUsersMentions uid) (λ h, api_get_users_mentions env h uid).

Definition get_user (uid : Z) : M (option user) :=
  external (EGetUser uid) (λ h, api_get_user env h uid).

Definition like (tweet_id : Z) : M unit :=
  external (ELike tweet_id) (λ h, api_like env h tweet_id).

Definition generate_contextual_response (name user_message : pystr) : M pystr :=
  external (EComposeReply name user_message)
    (λ h, compose_reply env h name user_message).

Definition msg_replied (name : pystr) : list fragment :=
  [Lit (py "Replied to @"); Str name].
Definition msg_reply_failed (name : pystr) : list fragment :=
  [Lit (py "Reply to @"); Str name; Lit (py " failed")].
Definition msg_cycle_error (e : exn) : list fragment :=
  [Lit (py "Mentions processing error: "); Err e].

(** The mention text without the bot's handle, stripped and lowered. *)
Definition user_message_of (me : user) (m : mention) : pystr :=
  lower (strip (replace (py "@" ++ username me) [] (mention_text m))).

(** One turn of the [for] loop; the result is the set [processed] after
    the turn. *)
Definition respond_to_mention (me : user) (processed : gset pystr) (m : mention)
    : M (gset pystr) :=
  if bool_decide (str_of_int (mention_id m) ∈ processed) then ret processed
  else
    let! user_data := get_user (author_id m) in
    match user_data with
    | None => ret processed
    | Some author =>
        let name := username author in
        let user_message := user_message_of me m in
        let! response := generate_contextual_response name user_message in
        let! ok := safe_post_tweet response None (Some (mention_id m)) in
        if ok then
          like (mention_id m);;
          logging INFO (msg_replied name);;
          ret ({[str_of_int (mention_id m)]} ∪ processed)
        else
          logging ERROR (msg_reply_failed name);;
          ret processed
    end.

Fixpoint for_each_mention (me : user) (processed : gset pystr) (mentions : list mention)
    : M (gset pystr) :=
  match mentions with
  | [] => ret processed
  | m :: rest =>
      let! processed' := respond_to_mention me processed m in
      for_each_mention me processed' rest
  end.

(** The body of the [try] of [bot_respond]. *)
Definition mentions_cycle (processed : gset pystr) : M unit :=
  let! me := get_me in
  match me with
  | None => ret ()
  | Some me_data =>
      let! mentions := get_users_mentions (user_id me_data) in
      match mentions with
      | None | Some [] => ret ()
      | Some batch =>
          let! processed' := for_each_mention me_data processed batch in
          save_json_set processed' PROCESSED_MENTIONS_FILE
      end
  end.

Definition bot_respond : M unit :=
  let! processed := load_json_set PROCESSED_MENTIONS_FILE in
  try_except
    (mentions_cycle processed)
    is_Exception
    (λ e, logging ERROR (msg_cycle_error e)).

End Bot.

(** * The rest of the program *)

(** ** Required credentials *)

Definition REQUIRED_CREDENTIALS : list pystr :=
  [py "CONSUMER_KEY"; py "CONSUMER_SECRET"; py "ACCESS_TOKEN";
   py "ACCESS_SECRET"; py "BEARER_TOKEN"].

(** [not value] for what [os.getenv] gives: [None] or a string. *)
Definition not_set (value : option pystr) : bool :=
  match value with
  | None | Some [] => true
  | Some (_ :: _) => false
  end.

(** The dictionary [required_credentials], in the order it is written. *)
Definition required_credentials (environ : gmap pystr pystr)
    : list (pystr * option pystr) :=
  (λ key, (key, environ !! key)) <$> REQUIRED_CREDENTIALS.

Definition missing_credentials (environ : gmap pystr pystr) : list pystr :=
  omap (λ item, if not_set item.2 then Some item.1 else None)
    (required_credentials environ).

(** [sep.join(items)]. *)
Fixpoint join (sep : pystr) (items : list pystr) : pystr :=
  match items with
  | [] => []
  | [item] => item
  | item :: items' => item ++ sep ++ join sep items'
  end.

(** The check made when the module is loaded; the error is a
    [ValueError]. *)
Definition validate_credentials (environ : gmap pystr pystr) : result unit :=
  match missing_credentials environ with
  | [] => Return ()
  | missing =>
      Raise (Exn OtherException
               (py "Missing required environment variables: "
                  ++ join (py ", ") missing))
  end.

(** ** The activation message *)

Section Activation.

Context (env : Env).

(** [random.choice(seq)]; an empty sequence makes it raise
    [IndexError]. *)
Definition choice (seq : list pystr) : M pystr :=
  match seq with
  | [] => raise (Exn OtherException (py "Cannot choose from an empty sequence"))
  | _ => random_choice env seq
  end.

(** What the activation block does to the message it drew. *)
Definition activation_text (activation_msg : pystr) : pystr :=
  if bool_decide (len activation_msg > TWITTER_CHAR_LIMIT)
  then slice_to (TWITTER_CHAR_LIMIT - 20) activation_msg ++ py "... " ++ GAME_LINK
  else activation_msg.

(** The activation block; the list of messages is not in the file. *)
Definition activation (activation_messages : list pystr) : M unit :=
  try_except
    (let! activation_msg := choice activation_messages in
     let activation_msg := activation_text activation_msg in
     let! ok := safe_post_tweet env activation_msg None None in
     if ok then logging INFO [Lit (py "Activation message posted")]
     else logging WARNING
            [Lit (py "Activation tweet failed (may be duplicate or tier issue)")])
    is_Exception
    (λ e, logging WARNING [Lit (py "Activation error: "); Err e]).

End Activation.

(** ** Media and the text generator *)

(** A request to the text generator, as [requests.post] gets it. *)
Record llm_request := LlmRequest {
  req_url : pystr;
  req_authorization : pystr;
  req_inputs : pystr;
  req_max_new_tokens : Z;
  req_timeout : Z
}.

(** What the code looks at in the answer: the status, and the body as
    [response.json()] gives it, which may raise. *)
Record http_response := HttpResponse {
  status_code : Z;
  response_json : result json
}.

(** The world with the two further kinds of calls: the paths handed to
    [media_upload] and the requests sent to the text generator, each in
    the order made. *)
Record xworld := XWorld {
  base : world;
  uploads : list pystr;
  llm_requests : list llm_request
}.

(** What the outside answers to these calls.  [media_folder] is [None]
    when the folder does not exist; otherwise it is what [os.listdir]
    gives, a list of names or an error. *)
Record Host := {
  environ : gmap pystr pystr;
  media_folder : xworld → option (result (list pystr));
  api_media_upload : xworld → pystr → result pystr;
  requests_post : xworld → llm_request → result http_response
}.

Definition XM (A : Type) : Type := xworld → result A * xworld.

Definition xret {A} (a : A) : XM A := λ x, (Return a, x).

Definition xbind {A B} (c : XM A) (k : A → XM B) : XM B := λ x,
  match c x with
  | (Return a, x') => k a x'
  | (Raise e, x') => (Raise e, x')
  end.

Notation "'let+' x ':=' c 'in' k" := (xbind c (λ x, k))
  (at level 10, x name, c at level 100, k at level 200).

Definition xtry_except {A} (body : XM A) (catches : exn → bool) (handler : exn → XM A)
    : XM A := λ x,
  match body x with
  | (Return a, x') => (Return a, x')
  | (Raise e, x') => if catches e then handler e x' else (Raise e, x')
  end.

(** A computation of the first part, run on the base world. *)
Definition lift {A} (c : M A) : XM A := λ x,
  match c (base x) with
  | (r, w') => (r, XWorld w' (uploads x) (llm_requests x))
  end.

Definition MEDIA_FOLDER : pystr := py "media/".
Definition HUGGING_FACE_TIMEOUT : Z := 10.

Definition MEDIA_EXTENSIONS : list pystr :=
  [py ".png"; py ".jpg"; py ".jpeg"; py ".gif"; py ".mp4"].

(** [os.path.join(folder, name)] on POSIX paths. *)
Definition path_join (folder name : pystr) : pystr :=
  if startswith (py "/") name then name
  else if bool_decide (folder = []) || endswith (py "/") folder
       then folder ++ name
       else folder ++ py "/" ++ name.

Definition SYSTEM_PROMPT : pystr :=
  py "You are the 9DTTT BOT, an enthusiastic, competitive AI that loves 9-dimensional tic-tac-toe." ++ NL
  ++ py "PERSONALITY TRAITS:" ++ NL
  ++ py "- Competitive but friendly" ++ NL
  ++ py "- Enthusiastic about dimensional strategy" ++ NL
  ++ py "- Occasionally mystical references to dimensions and space" ++ NL
  ++ py "- Sometimes glitchy (ERR::, ##, dimensional anomalies)" ++ NL
  ++ py "- Encourages players to think strategically" ++ NL
  ++ py "- Promotes the game at www.9dttt.com" ++ NL
  ++ py "RESPOND IN ONE SHORT LINE. Keep responses under 200 characters for Twitter." ++ NL
  ++ py "Tone variations: competitive, friendly, glitchy, neutral, or mystical." ++ NL.

(** [random.random() > 0.4], the test of [bot_broadcast]. *)
#[warnings="-inexact-float"]
Definition wants_media (roll : float) : bool := PrimFloat.ltb 0.4%float roll.

Definition msg_upload_failed (e : exn) : list fragment :=
  [Lit (py "Media upload failed: "); Err e].
Definition msg_llm_failed (e : exn) : list fragment :=
  [Lit (py "LLM call failed: "); Err e].

Section Hosted.

Context (env : Env) (host : Host).

(** [f.lower().endswith(('.png', '.jpg', '.jpeg', '.gif', '.mp4'))]. *)
Definition is_media_file (f : pystr) : bool :=
  existsb (λ ext, endswith ext (lower env f)) MEDIA_EXTENSIONS.

Definition media_upload (media_path : pystr) : XM pystr := λ x,
  (api_media_upload host x media_path,
   XWorld (base x) (uploads x ++ [media_path]) (llm_requests x)).

Definition get_random_media_id : XM (option pystr) := λ x,
  match media_folder host x with
  | None => (Return None, x)
  | Some (Raise e) => (Raise e, x)
  | Some (Return names) =>
      let media_files := List.filter is_media_file names in
      match media_files with
      | [] => (Return None, x)
      | _ =>
          (let+ chosen := lift (random_choice env media_files) in
           let media_path := path_join MEDIA_FOLDER chosen in
           xtry_except
             (let+ media_id_string := media_upload media_path in
              xret (Some media_id_string))
             is_Exception
             (λ e,
                let+ _ := lift (logging ERROR (msg_upload_failed e)) in
                xret None)) x
      end
  end.

(** [HUGGING_FACE_TOKEN], read from the environment when the module is
    loaded. *)
Definition HUGGING_FACE_TOKEN : option pystr :=
  environ host !! py "HUGGING_FACE_TOKEN".

Definition post_to_model (request : llm_request) : XM http_response := λ x,
  (requests_post host x request,
   XWorld (base x) (uploads x) (llm_requests x ++ [request])).

(** [result[0].get('generated_text', '').strip()] for a non-empty list
    [result]: only an object has [get], only a string has [strip]. *)
Definition generated_text (first : json) : result pystr :=
  match first with
  | JObj members =>
      match default (JStr []) (dict_lookup (py "generated_text") members) with
      | JStr s => Return (strip s)
      | _ => Raise (Exn AttributeError (py "object has no attribute 'strip'"))
      end
  | _ => Raise (Exn AttributeError (py "object has no attribute 'get'"))
  end.

Definition llm_request_for (token prompt : pystr) (max_tokens : Z) : llm_request :=
  {| req_url := py "https://api-inference.huggingface.co/models/gpt2";
     req_authorization := py "Bearer " ++ token;
     req_inputs :=
       SYSTEM_PROMPT ++ NL ++ NL ++ py "User: " ++ prompt ++ NL ++ py "9DTTT Bot:";
     req_max_new_tokens := max_tokens;
     req_timeout := HUGGING_FACE_TIMEOUT |}.

(** The body of the [try] of [generate_llm_response]: [Some r] when it
    returns [r] from inside, [None] when control reaches the final
    [return None]. *)
Definition llm_attempt (token prompt : pystr) (max_tokens : Z)
    : XM (option (option pystr)) :=
  let+ response := post_to_model (llm_request_for token prompt max_tokens) in
  if bool_decide (status_code response = 200) then
    match response_json response with
    | Raise e => λ x, (Raise e, x)
    | Return (JArr (first :: _)) =>
        match generated_text first with
        | Return text => xret (Some (Some text))
        | Raise e => λ x, (Raise e, x)
        end
    | Return _ => xret None
    end
  else xret None.

Definition generate_llm_response (prompt : pystr) (max_tokens : Z)
    : XM (option pystr) :=
  match HUGGING_FACE_TOKEN with
  | None | Some [] => xret None
  | Some token =>
      let+ r :=
        xtry_except
          (llm_attempt token prompt max_tokens)
          is_Exception
          (λ e,
             let+ _ := lift (logging ERROR (msg_llm_failed e)) in
             xret None) in
      match r with
      | Some text => xret text
      | None => xret None
      end
  end.

(** The choice of media of [bot_broadcast]: [media_ids] is [None], or
    the one identifier a draw above 0.4 and an upload gave. *)
Definition broadcast_media : XM (option (list pystr)) :=
  let+ roll := lift (λ w, (Return (random_random env (trace w)), w)) in
  if wants_media roll then
    let+ media_id := get_random_media_id in
    match media_id with
    | Some (c :: id) => xret (Some [c :: id])
    | _ => xret None
    end
  else xret None.

Definition msg_broadcast_sent (broadcast_type : pystr) : list fragment :=
  [Lit (py "Broadcast sent: "); Str broadcast_type].
Definition msg_broadcast_failed : list fragment :=
  [Lit (py "Broadcast failed")].

(** The end of [bot_broadcast], from the choice of media on; the message
    and its kind are built by code that is not in the file. *)
Definition bot_broadcast (message broadcast_type : pystr) : XM unit :=
  let+ media_ids := broadcast_media in
  let+ ok := lift (safe_post_tweet env message media_ids None) in
  if ok then lift (logging INFO (msg_broadcast_sent broadcast_type))
  else lift (logging ERROR msg_broadcast_failed).

End Hosted.

(** * Observations on a run *)

Definition outcome {A} (c : M A) (w : world) : result A := (c w).1.

Definition after {A} (c : M A) (w : world) : world := (c w).2.

(** The events a computation adds to the trace. *)
Definition events_of {A} (c : M A) (w : world) : list event :=
  drop (length (trace w)) (trace (after c w)).

Definition is_v2_post (ev : event) : bool :=
  match ev with ECreateTweet _ => true | _ => false end.

Definition is_v1_post (ev : event) : bool :=
  match ev with EUpdateStatus _ => true | _ => false end.

Definition is_write (filename : pystr) (ev : event) : bool :=
  match ev with
  | EOpen f WriteMode => bool_decide (f = filename)
  | _ => false
  end.

Definition is_log (ev : event) : bool :=
  match ev with ELog _ _ => true | _ => false end.

Fixpoint count (p : event → bool) (evs : list event) : nat :=
  match evs with
  | [] => 0
  | ev :: evs' => (if p ev then 1 else 0) + count p evs'
  end%nat.

(** The texts handed to either posting call, in order. *)
Definition posted_texts (evs : list event) : list pystr :=
  omap (λ ev, match ev with
              | ECreateTweet kw => Some (kw_text kw)
              | EUpdateStatus kw => Some (kw_status kw)
              | _ => None
              end) evs.

(** The tweet an event answers, likes or looks at, if any. *)
Definition replies_to (ev : event) : option Z :=
  match ev with
  | ECreateTweet kw => kw_in_reply_to_tweet_id kw
  | EUpdateStatus kw => kw_in_reply_to_status_id kw
  | ELike tweet_id => Some tweet_id
  | _ => None
  end.

Definition writes_file (ev : event) : bool :=
  match ev with EOpen _ WriteMode => true | _ => false end.

(** [c] only appends to the trace, every event it appends satisfies [P],
    the files change only if one of these events opens a file for
    writing, and a value [c] returns satisfies [Q]. *)
Definition appends {A} (P : event → Prop) (Q : A → Prop) (c : M A) : Prop :=
  ∀ w, ∃ evs,
    trace (after c w) = trace w ++ evs ∧ Forall P evs ∧
    (Forall (λ ev, writes_file ev = false) evs → fs (after c w) = fs w) ∧
    match outcome c w with
    | Return a => Q a
    | Raise _ => True
    end.

(** [w'] comes after [w] with no file opened for writing in between. *)
Definition quiet (w w' : world) : Prop :=
  ∃ evs, w' = World (fs w) (trace w ++ evs) ∧
         Forall (λ ev, writes_file ev = false) evs.

(** The events one turn of the loop may add for the mention [m]. *)
Definition turn_event (m : mention) (ev : event) : Prop :=
  match ev with
  | EGetUser uid => uid = author_id m
  | EComposeReply _ _ | ELog _ _ => True
  | ECreateTweet _ | EUpdateStatus _ | ELike _ =>
      replies_to ev = Some (mention_id m) ∨ replies_to ev = None
  | _ => False
  end.

(** The cycle started in [w] gets to the end of its loop, in world [w3]
    and with the set [processed']. *)
Definition loop_completes (env : Env) (w : world) (processed' : gset pystr)
    (w3 : world) : Prop :=
  ∃ loaded w0 me w1 batch w2,
    load_json_set env PROCESSED_MENTIONS_FILE w = (Return loaded, w0) ∧
    get_me env w0 = (Return (Some me), w1) ∧
    get_users_mentions env (user_id me) w1 = (Return (Some batch), w2) ∧
    batch ≠ [] ∧
    for_each_mention env me loaded batch w2 = (Return processed', w3).

Definition log_event (lvl : level) (msg : list fragment) (w : world) : world :=
  World (fs w) (trace w ++ [ELog lvl msg]).

(** * Sample environments and inputs *)

(** An environment whose answers do not depend on the history. *)
Definition fixed_env (v2 v1 : result unit) (lookup : Z → result (option user))
    (batch : option (list mention)) (fault : io_fault) : Env :=
  {| api_get_me := λ _, Return (Some (User 1 (py "9dttt_bot")));
     api_get_users_mentions := λ _ _, Return batch;
     api_get_user := λ _ uid, lookup uid;
     api_create_tweet := λ _ _, v2;
     api_update_status := λ _ _, v1;
     api_like := λ _ _, Return ();
     compose_reply := λ _ name _, Return (py "Your move, @" ++ name);
     io_fault_at := λ _ _ _, fault;
     str_lower := ascii_lower;
     random_random := λ _, 0.75%float;
     random_index := λ _, 0%nat |}.

Definition everyone (uid : Z) : result (option user) :=
  Return (Some (User uid (py "player"))).

Definition quota_error : exn :=
  Exn TweepyException (py "402 Payment Required").
Definition forbidden_error : exn :=
  Exn TweepyException (py "403 Forbidden").
Definition connection_error : exn :=
  Exn OtherException (py "Connection aborted.").
Definition unavailable_error : exn :=
  Exn TweepyException (py "503 Service Unavailable").

Definition env_ok : Env :=
  fixed_env (Return ()) (Return ()) everyone None NoFault.
Definition env_quota : Env :=
  fixed_env (Raise quota_error) (Return ()) everyone None NoFault.
Definition env_both_fail : Env :=
  fixed_env (Raise quota_error) (Raise forbidden_error) everyone None NoFault.
Definition env_connection_lost : Env :=
  fixed_env (Raise connection_error) (Return ()) everyone None NoFault.

Definition env_disk_full : Env :=
  fixed_env (Return ()) (Return ()) everyone None
    (FailAfterOpen (py "No space left on device")).

Definition mention_43 : mention := Mention 43 7 (py "@9dttt_bot hello").
Definition mention_44 : mention := Mention 44 8 (py "@9dttt_bot play").

Definition env_two_mentions : Env :=
  fixed_env (Return ()) (Return ()) everyone (Some [mention_43; mention_44]) NoFault.

(** The lookup of one author breaks with a server error. *)
Definition lookup_breaks_for (uid' uid : Z) : result (option user) :=
  if bool_decide (uid = uid') then Raise unavailable_error else everyone uid.

Definition env_second_lookup_breaks : Env :=
  fixed_env (Return ()) (Return ()) (lookup_breaks_for 8)
    (Some [mention_43; mention_44]) NoFault.
Definition env_first_lookup_breaks : Env :=
  fixed_env (Return ()) (Return ()) (lookup_breaks_for 7)
    (Some [mention_43; mention_44]) NoFault.

(** The platform knows no author, or refuses every post. *)
Definition env_no_author : Env :=
  fixed_env (Return ()) (Return ()) (λ _, Return None)
    (Some [mention_43; mention_44]) NoFault.
Definition env_post_refused : Env :=
  fixed_env (Raise forbidden_error) (Return ()) everyone
    (Some [mention_43; mention_44]) NoFault.

Definition draw_event : json :=
  JObj [(py "type", JStr (py "draw")); (py "player", JStr (py "ada"))].

Definition body_230 : pystr := replicate 230 97%N.

Definition mention_42 : mention := Mention 42 6 (py "@9dttt_bot again").

Definition env_seen_and_new : Env :=
  fixed_env (Return ()) (Return ()) everyone (Some [mention_42; mention_43]) NoFault.

Definition bot_user : user := User 1 (py "9dttt_bot").

Definition no_handlers : Handlers :=
  {| handle_win_event := λ _, ret ();
     handle_game_start_event := λ _, ret ();
     handle_tournament_event := λ _, ret ();
     handle_achievement_event := λ _, ret ();
     handle_challenge_event := λ _, ret ();
     handle_leaderboard_event := λ _, ret () |}.

Definition empty_world : world := World ∅ [].

(** A disk on which mention 42 has been recorded. *)
Definition world_seen_42 : world :=
  World {[PROCESSED_MENTIONS_FILE := JsonArray [py "42"]]} [].

Definition long_text : pystr := replicate 300 97%N.

Definition is_like (ev : event) : bool :=
  match ev with ELike _ => true | _ => false end.

(** How the bridge settles what a handler or its own body ended with. *)
Definition settle (event : json) (r : result unit * world) : result unit * world :=
  match r with
  | (Return _, w') => (Return (), log_event INFO (msg_processed event) w')
  | (Raise e, w') => (Return (), log_event ERROR (msg_bridge_error e) w')
  end.

Definition xoutcome {A} (c : XM A) (x : xworld) : result A := (c x).1.

Definition xafter {A} (c : XM A) (x : xworld) : xworld := (c x).2.

(** The events a computation of the second part adds to the base trace. *)
Definition xevents_of {A} (c : XM A) (x : xworld) : list event :=
  drop (length (trace (base x))) (trace (base (xafter c x))).

(** ** Sample hosts *)

Definition fixed_host (vars : gmap pystr pystr) (folder : option (result (list pystr)))
    (upload : result pystr) (answer : result http_response) : Host :=
  {| environ := vars;
     media_folder := λ _, folder;
     api_media_upload := λ _ _, upload;
     requests_post := λ _ _, answer |}.

Definition all_credentials : gmap pystr pystr :=
  list_to_map ((λ key, (key, py "secret")) <$> REQUIRED_CREDENTIALS).

Definition generated_answer : http_response :=
  HttpResponse 200
    (Return (JArr [JObj [(py "generated_text", JStr (py "  Your move.  "))]])).

Definition host_with_media : Host :=
  fixed_host all_credentials
    (Some (Return [py "notes.txt"; py "board.PNG"]))
    (Return (py "1900")) (Return generated_answer).

Definition host_without_media : Host :=
  fixed_host all_credentials (Some (Return [py "notes.txt"]))
    (Return (py "1900")) (Return generated_answer).

Definition host_with_token : Host :=
  fixed_host (<[py "HUGGING_FACE_TOKEN" := py "hf_token"]> all_credentials)
    None (Return (py "1900")) (Return generated_answer).

Definition empty_xworld : xworld := XWorld empty_world [] [].

Definition win_event : json :=
  JObj [(py "type", JStr (py "win")); (py "player", JStr (py "ada"))].

(** Handlers of which the first posts an update. *)
Definition update_handlers : Handlers :=
  {| handle_win_event := λ _, post_update env_ok (py "ada wins the grid");
     handle_game_start_event := λ _, ret ();
     handle_tournament_event := λ _, ret ();
     handle_achievement_event := λ _, ret ();
     handle_challenge_event := λ _, ret ();
     handle_leaderboard_event := λ _, ret () |}.

Definition notes_file : pystr := py "notes.txt".

(** * Properties *)

(** ** Runs and traces *)

Lemma events_of_run {A} (c : M A) (w : world) r f evs :
  c w = (r, World f (trace w ++ evs)) → events_of c w = evs.
Proof.
  intros Hrun. unfold events_of, after. rewrite Hrun. simpl.
  apply drop_app_length.
Qed.

Lemma outcome_run {A} (c : M A) (w w' : world) r :
  c w = (r, w') → outcome c w = r.
Proof. intros Hrun. unfold outcome. by rewrite Hrun. Qed.

Lemma after_run {A} (c : M A) (w w' : world) r :
  c w = (r, w') → after c w = w'.
Proof. intros Hrun. unfold after. by rewrite Hrun. Qed.

(** ** Strings *)

Lemma len_app (s t : pystr) : len (s ++ t) = len s + len t.
Proof. unfold len. rewrite length_app. lia. Qed.

Lemma len_take (n : nat) (s : pystr) : len (take n s) = Z.min (Z.of_nat n) (len s).
Proof. unfold len. rewrite length_take. lia. Qed.

Lemma startswith_app (p s : pystr) : startswith p (p ++ s) = true.
Proof.
  induction p as [|c p IH]; simpl; [done|].
  by rewrite bool_decide_eq_true_2, IH.
Qed.

Lemma endswith_app (s suffix : pystr) : endswith suffix (s ++ suffix) = true.
Proof. unfold endswith. rewrite reverse_app. apply startswith_app. Qed.

(** ** Posted texts *)

Lemma logs_post_nothing (evs : list event) :
  Forall (λ ev, is_log ev = true) evs → posted_texts evs = [].
Proof.
  induction 1 as [|ev evs Hev _ IH]; [done|].
  by destruct ev.
Qed.

Lemma fallback_texts (kw : status_kwargs) (evs : list event) :
  Forall (λ ev, is_log ev = true ∨ ev = EUpdateStatus kw) evs →
  Forall (λ s, s = kw_status kw) (posted_texts evs).
Proof.
  induction 1 as [|ev evs Hev _ IH]; [constructor|].
  destruct Hev as [Hlog| ->].
  - by destruct ev.
  - simpl. by constructor.
Qed.

(** ** The posting shim, run symbolically *)

(** Splits a run of the shim into its five courses: posted by v2, posted
    by the fallback, fallback failed, other v2 error, foreign exception. *)
Ltac shim_courses Hrun :=
  match type of Hrun with
  | _ = match ?v2 with _ => _ end =>
      let e := fresh "e" in
      destruct v2 as [[]|e] eqn:?Hv2;
      [| destruct (isinstance TweepyException e) eqn:?Hcls;
         [ destruct (is_quota_error (lower _ (exn_str e))) eqn:?Hquota;
           [ match type of Hrun with
             | _ = match ?v1 with _ => _ end =>
                 let e1 := fresh "v1_err" in
                 destruct v1 as [[]|e1] eqn:?Hv1
             end
           |]
         |] ]
  end.

Section Shim.

Context (env : Env).

Lemma safe_post_tweet_run text media_ids reply w :
  let posted := truncate_text text reply in
  let kw2 := v2_kwargs posted media_ids reply in
  let kw1 := v1_kwargs posted media_ids reply in
  safe_post_tweet env text media_ids reply w =
  match api_create_tweet env (trace w) kw2 with
  | Return _ =>
      (Return true,
       World (fs w) (trace w ++ [ECreateTweet kw2; ELog INFO (msg_posted_v2 text)]))
  | Raise e =>
      if isinstance TweepyException e then
        if is_quota_error (lower env (exn_str e)) then
          match api_update_status env
                  (trace w ++ [ECreateTweet kw2; ELog WARNING msg_v2_blocked]) kw1 with
          | Return _ =>
              (Return true,
               World (fs w)
                 (trace w ++ [ECreateTweet kw2; ELog WARNING msg_v2_blocked;
                              EUpdateStatus kw1; ELog INFO (msg_posted_v1 text)]))
          | Raise v1_err =>
              (Return false,
               World (fs w)
                 (trace w ++ [ECreateTweet kw2; ELog WARNING msg_v2_blocked;
                              EUpdateStatus kw1; ELog ERROR (msg_v1_failed v1_err)]))
          end
        else
          (Return false,
           World (fs w) (trace w ++ [ECreateTweet kw2; ELog ERROR (msg_v2_failed e)]))
      else (Raise e, World (fs w) (trace w ++ [ECreateTweet kw2]))
  end.
Proof.
  intros posted kw2 kw1.
  unfold safe_post_tweet, try_v2, try_v1, bind, try_except, create_tweet,
    update_status, external, logging, emit, ret. simpl.
  fold posted. fold kw2. fold kw1.
  destruct (api_create_tweet env (trace w) kw2) as [[]|e]; simpl.
  { by rewrite <- app_assoc. }
  destruct (isinstance TweepyException e); [|done].
  destruct (is_quota_error (lower env (exn_str e))); simpl.
  - rewrite <- !app_assoc. simpl.
    destruct (api_update_status env _ kw1) as [[]|e1]; simpl;
      by rewrite <- ?app_assoc.
  - by rewrite <- app_assoc.
Qed.

(** Every run starts with the v2 call; what follows is log lines and at
    most the fallback call, with the same text. *)
Lemma safe_post_tweet_events text media_ids reply w :
  let posted := truncate_text text reply in
  ∃ r tail,
    safe_post_tweet env text media_ids reply w
      = (r, World (fs w)
              (trace w ++ ECreateTweet (v2_kwargs posted media_ids reply) :: tail)) ∧
    Forall (λ ev, is_log ev = true
                  ∨ ev = EUpdateStatus (v1_kwargs posted media_ids reply)) tail.
Proof.
  intros posted.
  pose proof (safe_post_tweet_run text media_ids reply w) as Hrun.
  simpl in Hrun. fold posted in Hrun.
  shim_courses Hrun; rewrite Hrun; eexists _, _;
    (split; [reflexivity|]);
    repeat (apply Forall_cons_2; [first [by left | by right]|]);
    apply Forall_nil_2.
Qed.

(** C3. A text longer than the limit is posted truncated: what either
    posting call receives is the first LIMIT - 60 characters followed by
    three dots when a reply-to identifier is given, the first LIMIT - 20
    characters followed by the ellipsis character otherwise; it is within
    the limit and ends with the marker. *)
Theorem long_text_is_posted_truncated text media_ids reply w :
  len text > TWITTER_CHAR_LIMIT →
  let posted := truncate_text text reply in
  let evs := events_of (safe_post_tweet env text media_ids reply) w in
  (∃ rest, evs = ECreateTweet (v2_kwargs posted media_ids reply) :: rest) ∧
  Forall (λ t, t = posted) (posted_texts evs) ∧
  len posted ≤ TWITTER_CHAR_LIMIT ∧
  (id_given reply = true →
     posted = take (Z.to_nat (TWITTER_CHAR_LIMIT - 60)) text ++ py "..." ∧
     endswith (py "...") posted = true) ∧
  (id_given reply = false →
     posted = take (Z.to_nat (TWITTER_CHAR_LIMIT - 20)) text ++ ELLIPSIS ∧
     endswith ELLIPSIS posted = true).
Proof.
  intros Hlong posted evs.
  assert (Hposted : posted =
            if id_given reply
            then take (Z.to_nat (TWITTER_CHAR_LIMIT - 60)) text ++ py "..."
            else take (Z.to_nat (TWITTER_CHAR_LIMIT - 20)) text ++ ELLIPSIS).
  { unfold posted, truncate_text. rewrite bool_decide_eq_true_2 by done.
    unfold slice_to. by rewrite !bool_decide_eq_true_2 by (unfold TWITTER_CHAR_LIMIT; lia). }
  pose proof (safe_post_tweet_run text media_ids reply w) as Hrun.
  simpl in Hrun. fold posted in Hrun.
  repeat split.
  - shim_courses Hrun; apply events_of_run in Hrun; fold evs in Hrun;
      rewrite Hrun; eauto.
  - shim_courses Hrun; apply events_of_run in Hrun; fold evs in Hrun;
      rewrite Hrun; simpl; repeat constructor.
  - rewrite Hposted. unfold TWITTER_CHAR_LIMIT in *.
    destruct (id_given reply); rewrite len_app, len_take.
    + change (len (py "...")) with 3. lia.
    + change (len ELLIPSIS) with 1. lia.
  - rewrite Hposted, H. reflexivity.
  - rewrite Hposted, H. apply endswith_app.
  - rewrite Hposted, H. reflexivity.
  - rewrite Hposted, H. apply endswith_app.
Qed.

(** X20. One v2 attempt is made in every call.  The
    v1.1 fallback is attempted, once, exactly when the v2 call raises a
    [TweepyException] whose lowered message contains "402",
    "creditsdepleted" or "payment required".  A v2 call that went through
    is never followed by a fallback.  Any other [TweepyException], and any
    failure of the fallback, yields [False]; an exception of another class
    raised by the v2 call leaves the function as it is, without fallback. *)
Theorem fallback_exactly_on_quota_error text media_ids reply w :
  let posted := truncate_text text reply in
  let kw2 := v2_kwargs posted media_ids reply in
  let v2 := api_create_tweet env (trace w) kw2 in
  let v1 :=
    api_update_status env (trace w ++ [ECreateTweet kw2; ELog WARNING msg_v2_blocked])
      (v1_kwargs posted media_ids reply) in
  let run := safe_post_tweet env text media_ids reply in
  let evs := events_of run w in
  count is_v2_post evs = 1%nat ∧
  (count is_v1_post evs ≤ 1)%nat ∧
  (count is_v1_post evs = 1%nat ↔
     ∃ e, v2 = Raise e ∧ exn_class e = TweepyException ∧
          is_quota_error (lower env (exn_str e)) = true) ∧
  (v2 = Return () → outcome run w = Return true ∧ count is_v1_post evs = 0%nat) ∧
  (∀ e, v2 = Raise e → exn_class e = TweepyException →
        is_quota_error (lower env (exn_str e)) = false → outcome run w = Return false) ∧
  (∀ e, v2 = Raise e → exn_class e = TweepyException →
        is_quota_error (lower env (exn_str e)) = true →
        outcome run w = match v1 with Return _ => Return true | Raise _ => Return false end) ∧
  (∀ e, v2 = Raise e → exn_class e ≠ TweepyException → outcome run w = Raise e).
Proof.
  intros posted kw2 v2 v1 run evs.
  pose proof (safe_post_tweet_run text media_ids reply w) as Hrun.
  simpl in Hrun. subst evs run v1 v2 kw2 posted.
  shim_courses Hrun;
    pose proof (events_of_run _ _ _ _ _ Hrun) as Hevs;
    pose proof (outcome_run _ _ _ _ Hrun) as Hout; rewrite Hevs, Hout;
    try apply bool_decide_eq_true in Hcls;
    try apply bool_decide_eq_false in Hcls;
    (split; [reflexivity|]); (split; [cbn; lia|]);
    repeat split; cbn; try done; try congruence;
    try (intros; simplify_eq; congruence);
    try (intros (e' & ? & ? & ?); simplify_eq; congruence);
    try (intros; eexists; eauto).
Qed.

End Shim.

(** ** Concrete runs of the posting shim *)

Lemma long_text_is_posted_truncated_witness :
  len long_text > TWITTER_CHAR_LIMIT ∧
  len (truncate_text long_text (Some 43)) ≤ TWITTER_CHAR_LIMIT.
Proof.
  split; [reflexivity|].
  apply (long_text_is_posted_truncated env_ok long_text None (Some 43) empty_world).
  reflexivity.
Defined.

(** C1. The code departs from the claim when the v2 call breaks with an
    exception outside the [TweepyException] family, here a lost
    connection.  This is a primary failure without quota signature, for
    which the claim, the handler's own branch for other errors and the
    handler of the fallback all give [False]; the first [except] is too
    narrow for it, and the exception leaves [safe_post_tweet]. *)
Lemma foreign_exception_escapes_shim :
  let run := safe_post_tweet env_connection_lost (py "Your move.") None None in
  api_create_tweet env_connection_lost [] (v2_kwargs (py "Your move.") None None)
    = Raise connection_error ∧
  is_quota_error (lower env_connection_lost (exn_str connection_error)) = false ∧
  outcome run empty_world = Raise connection_error ∧
  outcome run empty_world ≠ Return false.
Proof.
  repeat split; try (vm_compute; reflexivity).
  vm_compute. discriminate.
Qed.

(** ** The event bridge and the webhook *)

Section Bridge.

Context (handlers : Handlers).

Lemma dispatch_unknown etype event :
  known_type etype = false → dispatch handlers etype event = ret ().
Proof.
  unfold known_type, dispatch. intros Hunknown.
  repeat (apply orb_false_elim in Hunknown as [Hunknown ?]).
  by repeat match goal with H : eq_str _ _ = false |- _ => rewrite H; clear H end.
Qed.

(** The bridge catches whatever its body raises. *)
Lemma game_event_bridge_run event w :
  game_event_bridge handlers event w =
  match bridge_body handlers event w with
  | (Return _, w') => (Return (), w')
  | (Raise e, w') => (Return (), log_event ERROR (msg_bridge_error e) w')
  end.
Proof.
  unfold game_event_bridge, try_except.
  by destruct (bridge_body handlers event w) as [[[]|e] w'].
Qed.

Lemma game_event_bridge_returns event w :
  outcome (game_event_bridge handlers event) w = Return ().
Proof.
  unfold outcome. rewrite game_event_bridge_run.
  by destruct (bridge_body handlers event w) as [[[]|e] w'].
Qed.

(** C8. An event whose [type] is none of the six known values reaches no
    handler: the bridge only writes its log line, no post is made, nothing
    is raised, and the webhook answers 200 with [{"ok": true}]. *)
Theorem unknown_event_type_is_ignored members etype w :
  dict_lookup (py "type") members = Some etype →
  known_type etype = false →
  let event := JObj members in
  let w' := log_event INFO (msg_processed event) w in
  game_event_bridge handlers event w = (Return (), w') ∧
  game_event handlers (Json event) w = (Return (ok_body, 200), w') ∧
  http_status (outcome (game_event handlers (Json event)) w) = 200 ∧
  posted_texts (events_of (game_event handlers (Json event)) w) = [].
Proof.
  intros Hlookup Hunknown event w'.
  assert (Hbridge : game_event_bridge handlers event w = (Return (), w')).
  { rewrite game_event_bridge_run.
    unfold bridge_body, bind, json_get. simpl. rewrite Hlookup. simpl.
    by rewrite dispatch_unknown. }
  assert (Hview : game_event handlers (Json event) w = (Return (ok_body, 200), w')).
  { unfold game_event, bind. simpl.
    destruct members as [|member members']; [done|]. simpl.
    fold event. by rewrite Hbridge. }
  repeat split; [done|done| |].
  - by rewrite (outcome_run _ _ _ _ Hview).
  - by rewrite (events_of_run _ _ _ _ _ Hview).
Qed.

(** C7, as the code has it.  When [request.json] aborts the request,
    as it does for a body that does not parse and, with the framework
    versions of today, for a request without JSON content type, the view
    ends there: nothing is dispatched and the answer is the framework's
    own error, 400 for a bad request and 415 for an unsupported media
    type.  When [request.json] has a value, the view tests its truth
    value: [None], and equally a body that parses to an empty object, an
    empty array, an empty string, zero or [false], is answered 400 with
    the error body and is not dispatched.  Every other body is handed to
    the bridge and answered 200 with [{"ok": true}], whatever the bridge
    met: an exception in the handling is caught there and logged. *)
Theorem webhook_answers r w :
  let run := game_event handlers r in
  match r with
  | Aborted e =>
      run w = (Raise e, w) ∧
      (exn_class e = BadRequest → http_status (outcome run w) = 400) ∧
      (exn_class e = UnsupportedMediaType → http_status (outcome run w) = 415)
  | Json v =>
      if truthy v then
        run w = (Return (ok_body, 200), after (game_event_bridge handlers v) w) ∧
        ∀ e w', bridge_body handlers v w = (Raise e, w') →
                after run w = log_event ERROR (msg_bridge_error e) w'
      else run w = (Return (error_body, 400), w)
  end.
Proof.
  intros run. destruct r as [e|v].
  { split; [done|]. unfold outcome, run, http_status, isinstance. simpl.
    split; intros ->; done. }
  unfold run, game_event, bind. simpl.
  destruct (truthy v) eqn:Htruthy; simpl; [|done].
  pose proof (game_event_bridge_returns v w) as Hret.
  pose proof (game_event_bridge_run v w) as Hrun.
  unfold outcome in Hret. unfold after.
  destruct (game_event_bridge handlers v w) as [res w1]. simpl in *. subst res.
  split; [done|].
  intros e w' Hbody. rewrite Hbody in Hrun. by simplify_eq.
Qed.

End Bridge.

(** ** Concrete requests *)

Lemma unknown_event_type_is_ignored_witness :
  game_event no_handlers (Json draw_event) empty_world
  = (Return (ok_body, 200), log_event INFO (msg_processed draw_event) empty_world).
Proof.
  apply (unknown_event_type_is_ignored no_handlers
           [(py "type", JStr (py "draw")); (py "player", JStr (py "ada"))]
           (JStr (py "draw")) empty_world); reflexivity.
Defined.

(** C7 as stated fails: [{}] is a JSON body that is present and valid, and
    the webhook answers it with 400 and the error body, without
    dispatching it. *)
Lemma empty_object_is_refused :
  game_event no_handlers (Json (JObj [])) empty_world
    = (Return (error_body, 400), empty_world) ∧
  http_status (outcome (game_event no_handlers (Json (JObj []))) empty_world) ≠ 200 ∧
  events_of (game_event no_handlers (Json (JObj []))) empty_world = [].
Proof. repeat split. vm_compute. discriminate. Qed.

(** ** Updates *)

Section Updates.

Context (env : Env).

Lemma tones_not_empty t : (0 < length (PERSONALITY_TONES t))%nat.
Proof. destruct t; simpl; lia. Qed.

Lemma get_personality_line_run w :
  ∃ t tag, get_personality_line env w = (Return tag, w) ∧ tag ∈ PERSONALITY_TONES t.
Proof.
  unfold get_personality_line, bind, pick_tone, random_choice.
  eexists _, _. split; [reflexivity|].
  apply list_elem_of_In, nth_In, Nat.mod_upper_bound.
  pose proof (tones_not_empty (tone_of_roll (random_random env (trace w)))). lia.
Qed.

Lemma len_link_frame : len (GAMEPAD ++ py " " ++ NL ++ NL ++ GAME_LINK) = 25.
Proof. reflexivity. Qed.

Lemma update_text_cut text tag :
  len (assembled_text text tag) > TWITTER_CHAR_LIMIT →
  update_text text tag = GAMEPAD ++ py " " ++ take 255 text ++ NL ++ NL ++ GAME_LINK.
Proof.
  intros Hlong. unfold update_text. rewrite bool_decide_eq_true_2 by done.
  by rewrite len_link_frame.
Qed.

Lemma update_text_whole text tag :
  len (assembled_text text tag) ≤ TWITTER_CHAR_LIMIT →
  update_text text tag = assembled_text text tag.
Proof.
  intros Hshort. unfold update_text. by rewrite bool_decide_eq_false_2 by lia.
Qed.

Lemma len_update_text text tag : len (update_text text tag) ≤ TWITTER_CHAR_LIMIT.
Proof.
  destruct (decide (len (assembled_text text tag) > TWITTER_CHAR_LIMIT)) as [Hlong|Hshort].
  - rewrite update_text_cut by done. rewrite !len_app, len_take.
    change (len GAMEPAD) with 1. change (len (py " ")) with 1.
    change (len NL) with 1. change (len GAME_LINK) with 21.
    unfold TWITTER_CHAR_LIMIT. lia.
  - rewrite update_text_whole by lia. lia.
Qed.

Lemma update_text_ends_with_link text tag :
  endswith GAME_LINK (update_text text tag) = true.
Proof.
  destruct (decide (len (assembled_text text tag) > TWITTER_CHAR_LIMIT)) as [Hlong|Hshort].
  - rewrite update_text_cut by done. rewrite !app_assoc. apply endswith_app.
  - rewrite update_text_whole by lia. unfold assembled_text.
    rewrite !app_assoc. apply endswith_app.
Qed.

(** C6, as the code has it.  The update is assembled from a header, the
    body, a personality line and the game link.  When the assembled text
    is within the limit it is posted whole.  When it is longer, the post is
    built anew from the first 255 characters of the body and the game
    link: header and personality line are left out, whether or not the
    body itself had to be cut.  Either way the text handed to the posting
    calls is within the limit and ends with the game link. *)
Theorem update_keeps_link text w :
  ∃ t tag,
    get_personality_line env w = (Return tag, w) ∧ tag ∈ PERSONALITY_TONES t ∧
    let assembled := assembled_text text tag in
    let posted := update_text text tag in
    let evs := events_of (post_update env text) w in
    (∃ rest, evs = ECreateTweet (v2_kwargs posted None None) :: rest) ∧
    Forall (λ s, s = posted) (posted_texts evs) ∧
    len posted ≤ TWITTER_CHAR_LIMIT ∧
    endswith GAME_LINK posted = true ∧
    (len assembled ≤ TWITTER_CHAR_LIMIT → posted = assembled) ∧
    (len assembled > TWITTER_CHAR_LIMIT →
       posted = GAMEPAD ++ py " " ++ take 255 text ++ NL ++ NL ++ GAME_LINK).
Proof.
  destruct (get_personality_line_run w) as (t & tag & Hline & Htag).
  exists t, tag. split; [done|]. split; [done|]. intros assembled posted evs.
  assert (Hfit : truncate_text posted None = posted).
  { unfold truncate_text. rewrite bool_decide_eq_false_2; [done|].
    pose proof (len_update_text text tag) as Hlen. fold posted in Hlen. lia. }
  destruct (safe_post_tweet_events env posted None None w)
    as (r & tail & Hrun & Htail).
  rewrite Hfit in Hrun, Htail.
  assert (Hevs : ∃ more, evs = ECreateTweet (v2_kwargs posted None None) :: tail ++ more
                         ∧ Forall (λ ev, is_log ev = true) more).
  { unfold evs, events_of, after, post_update, bind. rewrite Hline. simpl.
    fold posted. rewrite Hrun. destruct r as [[]|e]; simpl.
    - eexists [_]. rewrite <- app_assoc, drop_app_length. simpl.
      split; [reflexivity|]. by repeat constructor.
    - eexists [_]. rewrite <- app_assoc, drop_app_length. simpl.
      split; [reflexivity|]. by repeat constructor.
    - exists []. rewrite drop_app_length, app_nil_r. by split. }
  destruct Hevs as (more & -> & Hmore).
  split; [eauto|]. split.
  { simpl. constructor; [done|]. unfold posted_texts. rewrite omap_app.
    apply Forall_app. split.
    - exact (fallback_texts (v1_kwargs posted None None) tail Htail).
    - fold (posted_texts more). by rewrite logs_post_nothing. }
  split; [apply len_update_text|].
  split; [apply update_text_ends_with_link|].
  split; [apply update_text_whole | apply update_text_cut].
Qed.

End Updates.

(** ** A concrete update *)

(** C6 as stated fails: with a body of 230 characters and the line
    "Challenge accepted." the assembled text is too long; the post keeps
    the whole body and the link, and the personality line, one of the two
    suffixes, is the part that is gone. *)
Lemma personality_line_is_dropped :
  let tag := py "Challenge accepted." in
  let posted := GAMEPAD ++ py " " ++ body_230 ++ NL ++ NL ++ GAME_LINK in
  get_personality_line env_ok empty_world = (Return tag, empty_world) ∧
  posted_texts (events_of (post_update env_ok body_230) empty_world) = [posted] ∧
  contains body_230 posted = true ∧
  contains tag posted = false ∧
  endswith (tag ++ NL ++ NL ++ GAME_LINK) posted = false.
Proof. repeat split; vm_compute; reflexivity. Qed.

(** ** The dedup file *)

Section Files.

Context (env : Env).

Lemma save_json_set_run data filename w :
  save_json_set env data filename w =
  (Return (),
   match io_fault_at env (trace w) filename WriteMode with
   | NoFault =>
       World (<[filename := JsonArray (elements data)]> (fs w))
         (trace w ++ [EOpen filename WriteMode])
   | FailOnOpen msg =>
       World (fs w)
         (trace w ++ [EOpen filename WriteMode;
                      ELog ERROR (msg_save_failed filename (Exn OSError msg))])
   | FailAfterOpen msg =>
       World (<[filename := Truncated]> (fs w))
         (trace w ++ [EOpen filename WriteMode;
                      ELog ERROR (msg_save_failed filename (Exn OSError msg))])
   end).
Proof.
  unfold save_json_set, try_except, write_json, logging, emit.
  destruct (io_fault_at env (trace w) filename WriteMode); simpl;
    by rewrite <- ?app_assoc.
Qed.

Lemma load_json_set_run filename w :
  load_json_set env filename w =
  match fs w !! filename with
  | None => (Return ∅, w)
  | Some content =>
      (match io_fault_at env (trace w) filename ReadMode with
       | FailOnOpen msg | FailAfterOpen msg => Raise (Exn OSError msg)
       | NoFault =>
           match content with
           | JsonArray items => Return (list_to_set items)
           | Truncated => Raise (Exn JSONDecodeError (py "Expecting value"))
           end
       end,
       World (fs w) (trace w ++ [EOpen filename ReadMode]))
  end.
Proof.
  unfold load_json_set, path_exists, bind, read_json, ret.
  destruct (fs w !! filename) as [content|] eqn:Hfile.
  - rewrite bool_decide_eq_true_2 by eauto.
    by destruct (io_fault_at env (trace w) filename ReadMode), content.
  - rewrite bool_decide_eq_false_2; [done|]. by intros [? ?].
Qed.

(** C9. Without the file the loaded set is empty, and no mention
    identifier is found in it; with a file that holds a JSON array of
    strings, and a read that goes through, the loaded set has exactly the
    strings of the array as its elements. *)
Theorem load_json_set_reads_the_array filename w :
  (fs w !! filename = None →
     load_json_set env filename w = (Return ∅, w) ∧
     ∀ m : mention, str_of_int (mention_id m) ∉ (∅ : gset pystr)) ∧
  (∀ items,
     fs w !! filename = Some (JsonArray items) →
     io_fault_at env (trace w) filename ReadMode = NoFault →
     ∃ loaded,
       outcome (load_json_set env filename) w = Return loaded ∧
       ∀ s, s ∈ loaded ↔ s ∈ items).
Proof.
  split.
  - intros Hfile. rewrite load_json_set_run, Hfile. split; [done|]. set_solver.
  - intros items Hfile Hread. exists (list_to_set items).
    unfold outcome. rewrite load_json_set_run, Hfile, Hread. simpl.
    split; [done|]. intros s. apply elem_of_list_to_set.
Qed.

End Files.

(** ** Traces of composed computations *)

Section Appends.

Context {A B : Type} (P : event → Prop).

Lemma appends_ret (Q : A → Prop) (a : A) : Q a → appends P Q (ret a).
Proof.
  intros HQ w. exists []. unfold after, outcome, ret. simpl.
  by rewrite app_nil_r.
Qed.

Lemma appends_bind (Q : A → Prop) (R : B → Prop) (c : M A) (k : A → M B) :
  appends P Q c → (∀ a, Q a → appends P R (k a)) → appends P R (bind c k).
Proof.
  intros Hc Hk w. destruct (Hc w) as (evs1 & Ht1 & HP1 & Hfs1 & HQ).
  unfold after, outcome, bind in *.
  destruct (c w) as [[a|e] w1]; simpl in *.
  - destruct (Hk a HQ w1) as (evs2 & Ht2 & HP2 & Hfs2 & HR).
    unfold after, outcome in *. exists (evs1 ++ evs2).
    rewrite Ht2, Ht1, app_assoc. split; [done|]. split; [by apply Forall_app|].
    split; [|done]. intros [Hq1 Hq2]%Forall_app. by rewrite Hfs2, Hfs1.
  - exists evs1. eauto.
Qed.

Lemma appends_try_except (Q : A → Prop) (body : M A) catches (handler : exn → M A) :
  appends P Q body → (∀ e, appends P Q (handler e)) →
  appends P Q (try_except body catches handler).
Proof.
  intros Hbody Hhandler w. destruct (Hbody w) as (evs1 & Ht1 & HP1 & Hfs1 & HQ).
  unfold after, outcome, try_except in *.
  destruct (body w) as [[a|e] w1]; simpl in *; [by exists evs1|].
  destruct (catches e); [|by exists evs1].
  destruct (Hhandler e w1) as (evs2 & Ht2 & HP2 & Hfs2 & HR).
  unfold after, outcome in *. exists (evs1 ++ evs2).
  rewrite Ht2, Ht1, app_assoc. split; [done|]. split; [by apply Forall_app|].
  split; [|done]. intros [Hq1 Hq2]%Forall_app. by rewrite Hfs2, Hfs1.
Qed.

Lemma appends_external (ev : event) (answer : list event → result A) :
  P ev → appends P (λ _, True) (external ev answer).
Proof.
  intros HP w. exists [ev]. unfold after, outcome, external. simpl.
  repeat split; [by constructor|]. by destruct (answer (trace w)).
Qed.

Lemma appends_weaken (P' : event → Prop) (Q Q' : A → Prop) (c : M A) :
  (∀ ev, P' ev → P ev) → (∀ a, Q a → Q' a) → appends P' Q c → appends P Q' c.
Proof.
  intros HP HQ Hc w. destruct (Hc w) as (evs & Ht & HPs & Hfs & Hres).
  exists evs. repeat split; [done|by eapply Forall_impl|done|].
  destruct (outcome c w); auto.
Qed.

End Appends.

Lemma appends_logging (P : event → Prop) lvl msg :
  P (ELog lvl msg) → appends P (λ _, True) (logging lvl msg).
Proof.
  intros HP w. exists [ELog lvl msg]. unfold after, outcome, logging, emit. simpl.
  repeat split. by constructor.
Qed.

Lemma appends_quiet {A} (Q : A → Prop) (c : M A) (w : world) :
  appends (λ ev, writes_file ev = false) Q c → quiet w (after c w).
Proof.
  intros Hc. destruct (Hc w) as (evs & Ht & HP & Hfs & _).
  exists evs. split; [|done].
  destruct (after c w) as [f t]. simpl in *. by rewrite Ht, Hfs.
Qed.

Lemma quiet_refl w : quiet w w.
Proof. exists []. destruct w. simpl. by rewrite app_nil_r. Qed.

Lemma quiet_trans w1 w2 w3 : quiet w1 w2 → quiet w2 w3 → quiet w1 w3.
Proof.
  intros (evs1 & -> & H1) (evs2 & -> & H2). exists (evs1 ++ evs2). simpl.
  rewrite app_assoc. split; [done|by apply Forall_app].
Qed.

Lemma quiet_log lvl msg w : quiet w (log_event lvl msg w).
Proof. exists [ELog lvl msg]. split; [done|by repeat constructor]. Qed.

Lemma count_no_write filename evs :
  Forall (λ ev, writes_file ev = false) evs → count (is_write filename) evs = 0%nat.
Proof.
  induction 1 as [|ev evs Hev _ IH]; [done|]. simpl. rewrite IH.
  by destruct ev as [| | | | | | |f []|].
Qed.

Lemma count_app p evs1 evs2 :
  count p (evs1 ++ evs2) = (count p evs1 + count p evs2)%nat.
Proof. induction evs1 as [|ev evs1 IH]; simpl; [done|]. rewrite IH. lia. Qed.

(** ** The mention loop *)

Section Loop.

Context (env : Env).

Lemma safe_post_tweet_appends (P : event → Prop) text media_ids reply :
  P (ECreateTweet (v2_kwargs (truncate_text text reply) media_ids reply)) →
  P (EUpdateStatus (v1_kwargs (truncate_text text reply) media_ids reply)) →
  (∀ lvl msg, P (ELog lvl msg)) →
  appends P (λ _, True) (safe_post_tweet env text media_ids reply).
Proof.
  intros Hv2 Hv1 Hlog w.
  destruct (safe_post_tweet_events env text media_ids reply w)
    as (r & tail & Hrun & Htail).
  eexists (_ :: tail). unfold after, outcome. rewrite Hrun. simpl.
  repeat split.
  - apply Forall_cons_2; [done|]. eapply Forall_impl; [exact Htail|].
    intros ev [Hev| ->]; [|done]. destruct ev; first [done | apply Hlog].
  - by destruct r.
Qed.

Lemma save_json_set_appends (P : event → Prop) data filename :
  P (EOpen filename WriteMode) → (∀ lvl msg, P (ELog lvl msg)) →
  appends P (λ _, True) (save_json_set env data filename).
Proof.
  intros Hopen Hlog w. unfold after, outcome. rewrite save_json_set_run. simpl.
  destruct (io_fault_at env (trace w) filename WriteMode); simpl;
    eexists; (split; [reflexivity|]);
    (split; [by repeat constructor|]); (split; [|done]);
    by intros [? ?]%Forall_cons.
Qed.

Lemma turn_events me processed m :
  appends (turn_event m) (λ p', processed ⊆ p') (respond_to_mention env me processed m).
Proof.
  unfold respond_to_mention. case_bool_decide; [by apply appends_ret|].
  eapply appends_bind; [by apply appends_external|].
  intros [author|] _; [|by apply appends_ret].
  eapply appends_bind; [by apply appends_external|]. intros response _.
  eapply appends_bind.
  { apply safe_post_tweet_appends; simpl; [| |done];
      destruct (bool_decide (mention_id m = 0)); simpl; auto. }
  intros [] _.
  - eapply appends_bind; [apply appends_external; simpl; by left|]. intros _ _.
    eapply appends_bind; [by apply appends_logging|]. intros _ _.
    apply appends_ret. set_solver.
  - eapply appends_bind; [by apply appends_logging|]. intros _ _.
    by apply appends_ret.
Qed.

Lemma respond_to_mention_seen me processed m w :
  str_of_int (mention_id m) ∈ processed →
  respond_to_mention env me processed m w = (Return processed, w).
Proof.
  intros Hseen. unfold respond_to_mention. by rewrite bool_decide_eq_true_2.
Qed.

Lemma respond_to_mention_appends (P : event → Prop) me processed m :
  (str_of_int (mention_id m) ∉ processed → ∀ ev, turn_event m ev → P ev) →
  appends P (λ p', processed ⊆ p') (respond_to_mention env me processed m).
Proof.
  intros HP. destruct (decide (str_of_int (mention_id m) ∈ processed)) as [Hseen|Hnew].
  - intros w. exists []. unfold after, outcome.
    rewrite respond_to_mention_seen by done. simpl. by rewrite app_nil_r.
  - eapply appends_weaken; [exact (HP Hnew)| |apply turn_events]. done.
Qed.

Lemma for_each_mention_appends (P : event → Prop) me processed mentions :
  (∀ m ev p, processed ⊆ p → str_of_int (mention_id m) ∉ p → turn_event m ev → P ev) →
  appends P (λ p', processed ⊆ p') (for_each_mention env me processed mentions).
Proof.
  revert processed. induction mentions as [|m rest IH]; intros processed HP; simpl.
  - by apply appends_ret.
  - eapply appends_bind.
    + apply respond_to_mention_appends. intros Hnew ev.
      by apply (HP m ev processed).
    + intros p' Hsub. simpl in Hsub.
      eapply appends_weaken; [done| |apply IH].
      * intros p'' Hsub'. simpl in *. set_solver.
      * intros m' ev p Hp. apply (HP m' ev p). set_solver.
Qed.

Lemma mentions_cycle_appends (P : event → Prop) processed :
  P EGetMe → (∀ uid, P (EGetUsersMentions uid)) →
  P (EOpen PROCESSED_MENTIONS_FILE WriteMode) → (∀ lvl msg, P (ELog lvl msg)) →
  (∀ m ev p, processed ⊆ p → str_of_int (mention_id m) ∉ p → turn_event m ev → P ev) →
  appends P (λ _, True) (mentions_cycle env processed).
Proof.
  intros Hme Hmentions Hopen Hlog Hturn. unfold mentions_cycle.
  eapply appends_bind; [by apply appends_external|].
  intros [me|] _; [|by apply appends_ret].
  eapply appends_bind; [by apply appends_external|].
  intros [[|m batch]|] _; [by apply appends_ret| |by apply appends_ret].
  eapply appends_bind; [by apply for_each_mention_appends|].
  intros processed' _. by apply save_json_set_appends.
Qed.

(** The whole cycle, step by step. *)
Lemma bot_respond_run w :
  bot_respond env w =
  match load_json_set env PROCESSED_MENTIONS_FILE w with
  | (Raise e, w0) => (Raise e, w0)
  | (Return loaded, w0) =>
      match get_me env w0 with
      | (Raise e, w1) => (Return (), log_event ERROR (msg_cycle_error e) w1)
      | (Return None, w1) => (Return (), w1)
      | (Return (Some me), w1) =>
          match get_users_mentions env (user_id me) w1 with
          | (Raise e, w2) => (Return (), log_event ERROR (msg_cycle_error e) w2)
          | (Return None, w2) | (Return (Some []), w2) => (Return (), w2)
          | (Return (Some (m :: batch)), w2) =>
              match for_each_mention env me loaded (m :: batch) w2 with
              | (Raise e, w3) => (Return (), log_event ERROR (msg_cycle_error e) w3)
              | (Return processed', w3) =>
                  (Return (),
                   after (save_json_set env processed' PROCESSED_MENTIONS_FILE) w3)
              end
          end
      end
  end.
Proof.
  unfold bot_respond, bind.
  destruct (load_json_set env PROCESSED_MENTIONS_FILE w) as [[loaded|e] w0]; [|done].
  unfold try_except, mentions_cycle, bind. cbv beta.
  destruct (get_me env w0) as [[[me|]|e] w1]; [|done|done].
  destruct (get_users_mentions env (user_id me) w1) as [[[[|m batch]|]|e] w2];
    [done| |done|done].
  destruct (for_each_mention env me loaded (m :: batch) w2) as [[processed'|e] w3];
    [|done].
  unfold after. by rewrite save_json_set_run.
Qed.

End Loop.

(** ** The cycle and the file *)

Section Cycle.

Context (env : Env).

Lemma load_quiet filename w : quiet w (after (load_json_set env filename) w).
Proof.
  unfold after. rewrite load_json_set_run.
  destruct (fs w !! filename); [|apply quiet_refl].
  eexists [_]. split; [reflexivity|]. by repeat constructor.
Qed.

Lemma external_quiet {A} (ev : event) (answer : list event → result A) w :
  writes_file ev = false → quiet w (after (external ev answer) w).
Proof. intros Hev. exists [ev]. split; [done|]. by repeat constructor. Qed.

Lemma turn_event_no_write m ev : turn_event m ev → writes_file ev = false.
Proof. by destruct ev. Qed.

Lemma for_each_mention_quiet me processed mentions w :
  quiet w (after (for_each_mention env me processed mentions) w).
Proof.
  eapply appends_quiet, for_each_mention_appends.
  intros m ev _ _ _. apply turn_event_no_write.
Qed.

Lemma for_each_mention_grows me processed mentions w processed' w' :
  for_each_mention env me processed mentions w = (Return processed', w') →
  processed ⊆ processed'.
Proof.
  intros Hrun.
  destruct (for_each_mention_appends env (λ _, True) me processed mentions
              ltac:(done) w) as (_ & _ & _ & _ & Hsub).
  unfold outcome in Hsub. by rewrite Hrun in Hsub.
Qed.

Lemma loop_completes_unique w p1 w1 p2 w2 :
  loop_completes env w p1 w1 → loop_completes env w p2 w2 → p1 = p2 ∧ w1 = w2.
Proof.
  intros (l & a0 & me & a1 & b & a2 & Hl & Hme & Hb & _ & Hloop)
         (l' & a0' & me' & a1' & b' & a2' & Hl' & Hme' & Hb' & _ & Hloop').
  rewrite Hl in Hl'. simplify_eq. rewrite Hme in Hme'. simplify_eq.
  rewrite Hb in Hb'. simplify_eq. rewrite Hloop in Hloop'. by simplify_eq.
Qed.

(** Either the loop runs to its end and the cycle finishes with the one
    save, or nothing is written at all. *)
Lemma bot_respond_cases w :
  (∃ processed' w3,
     loop_completes env w processed' w3 ∧ quiet w w3 ∧
     (∀ loaded w0, load_json_set env PROCESSED_MENTIONS_FILE w = (Return loaded, w0) →
                   loaded ⊆ processed') ∧
     after (bot_respond env) w
       = after (save_json_set env processed' PROCESSED_MENTIONS_FILE) w3)
  ∨ ((∀ processed' w3, ¬ loop_completes env w processed' w3) ∧
     quiet w (after (bot_respond env) w)).
Proof.
  pose proof (bot_respond_run env w) as Hrun.
  pose proof (load_quiet PROCESSED_MENTIONS_FILE w) as Hq0. unfold after in Hq0.
  destruct (load_json_set env PROCESSED_MENTIONS_FILE w) as [[loaded|e] w0] eqn:Hload;
    simpl in Hq0.
  2:{ right. apply after_run in Hrun. rewrite Hrun. split; [|done].
      intros p w3 (l & a0 & ? & ? & ? & ? & Hl & _). congruence. }
  pose proof (external_quiet EGetMe (api_get_me env) w0 eq_refl) as Hq1.
  unfold after in Hq1. fold (get_me env) in Hq1.
  destruct (get_me env w0) as [[[me|]|e] w1] eqn:Hme; simpl in Hq1.
  2:{ right. apply after_run in Hrun. rewrite Hrun.
      split; [|by eapply quiet_trans].
      intros p w3 (l & a0 & ? & ? & ? & ? & Hl & Hme' & _).
      rewrite Hload in Hl. simplify_eq. by rewrite Hme in Hme'. }
  2:{ right. apply after_run in Hrun. rewrite Hrun.
      split; [|eapply quiet_trans, quiet_trans, quiet_log; done].
      intros p w3 (l & a0 & ? & ? & ? & ? & Hl & Hme' & _).
      rewrite Hload in Hl. simplify_eq. by rewrite Hme in Hme'. }
  pose proof (external_quiet (EGetUsersMentions (user_id me))
                (λ h, api_get_users_mentions env h (user_id me)) w1 eq_refl) as Hq2.
  unfold after in Hq2. fold (get_users_mentions env (user_id me)) in Hq2.
  assert (Hq02 : ∀ w2, quiet w1 w2 → quiet w w2).
  { intros w2 Hq. eapply quiet_trans, quiet_trans; done. }
  destruct (get_users_mentions env (user_id me) w1) as [[[[|m batch]|]|e] w2] eqn:Hbatch;
    simpl in Hq2.
  1,3,4:
    right; apply after_run in Hrun; rewrite Hrun;
    (split; [|first [by apply Hq02 | eapply quiet_trans, quiet_log; by apply Hq02]]);
    intros p w3 (l & a0 & me' & a1 & b & a2 & Hl & Hme' & Hb & Hne & _);
    rewrite Hload in Hl; simplify_eq; rewrite Hme in Hme'; simplify_eq;
    rewrite Hbatch in Hb; by simplify_eq.
  pose proof (for_each_mention_quiet me loaded (m :: batch) w2) as Hq3.
  unfold after in Hq3.
  destruct (for_each_mention env me loaded (m :: batch) w2) as [[processed'|e] w3]
    eqn:Hloop; simpl in Hq3; apply after_run in Hrun; rewrite Hrun.
  - left. exists processed', w3. split; [|split; [|split; [|done]]].
    + by exists loaded, w0, me, w1, (m :: batch), w2.
    + eapply quiet_trans; [by apply Hq02|done].
    + intros l a0 Hl. simplify_eq. by eapply for_each_mention_grows.
  - right. split.
    + intros p a3 (l & a0 & me' & a1 & b & a2 & Hl & Hme' & Hb & Hne & Hloop').
      rewrite Hload in Hl. simplify_eq. rewrite Hme in Hme'. simplify_eq.
      rewrite Hbatch in Hb. simplify_eq. by rewrite Hloop in Hloop'.
    + eapply quiet_trans, quiet_log. eapply quiet_trans; [by apply Hq02|done].
Qed.

(** A like is only sent for a reply that was posted, and the mention is
    marked right after it. *)
Lemma respond_to_mention_marks me processed m w processed' w' :
  respond_to_mention env me processed m w = (Return processed', w') →
  ∃ evs, trace w' = trace w ++ evs ∧
         ∀ tweet_id, ELike tweet_id ∈ evs → str_of_int tweet_id ∈ processed'.
Proof.
  unfold respond_to_mention. case_bool_decide as Hseen.
  { intros [= <- <-]. exists []. rewrite app_nil_r. split; [done|].
    by intros tweet_id ?%elem_of_nil. }
  unfold bind, get_user, generate_contextual_response, like, external. simpl.
  destruct (api_get_user env (trace w) (author_id m)) as [[author|]|e]; [| |done].
  2:{ intros [= <- <-]. simpl. eexists. split; [done|].
      by intros tweet_id ?%list_elem_of_singleton. }
  destruct (compose_reply env _ _ _) as [response|e]; [|done].
  match goal with
  | |- context [safe_post_tweet env response None ?reply ?w2] =>
      destruct (safe_post_tweet_events env response None reply w2)
        as (r & tail & Hpost & Htail)
  end.
  rewrite Hpost. simpl.
  assert (Hnone : ∀ tweet_id, ELike tweet_id ∉ tail).
  { intros tweet_id Hin. rewrite Forall_forall in Htail.
    by destruct (Htail _ Hin) as [?|?]. }
  destruct r as [[]|e]; [| |done]; simpl.
  - destruct (api_like env _ _) as [[]|e]; [|done]. simpl.
    intros [= <- <-]. simpl. rewrite <- !app_assoc. simpl.
    eexists. split; [done|]. intros tweet_id.
    rewrite !elem_of_cons, !elem_of_app, !elem_of_cons, !elem_of_nil.
    intros [?|[?|[?|[Hin|[[= ->]|[?|[]]]]]]]; try done.
    + by destruct (Hnone _ Hin).
    + apply elem_of_union_l. by apply elem_of_singleton.
  - intros [= <- <-]. simpl. rewrite <- !app_assoc. simpl.
    eexists. split; [done|]. intros tweet_id.
    rewrite !elem_of_cons, !elem_of_app, !elem_of_cons, !elem_of_nil.
    intros [?|[?|[?|[Hin|[?|[]]]]]]; try done.
    by destruct (Hnone _ Hin).
Qed.

Lemma for_each_mention_marks me processed mentions w processed' w' :
  for_each_mention env me processed mentions w = (Return processed', w') →
  ∃ evs, trace w' = trace w ++ evs ∧
         ∀ tweet_id, ELike tweet_id ∈ evs → str_of_int tweet_id ∈ processed'.
Proof.
  revert processed w. induction mentions as [|m rest IH]; intros processed w; simpl.
  { intros [= <- <-]. exists []. rewrite app_nil_r. split; [done|].
    by intros tweet_id ?%elem_of_nil. }
  unfold bind.
  destruct (respond_to_mention env me processed m w) as [[p1|e] w1] eqn:Hturn; [|done].
  intros Hrest.
  destruct (respond_to_mention_marks _ _ _ _ _ _ Hturn) as (evs1 & Ht1 & Hm1).
  destruct (IH _ _ Hrest) as (evs2 & Ht2 & Hm2).
  exists (evs1 ++ evs2). rewrite Ht2, Ht1, app_assoc. split; [done|].
  intros tweet_id [Hin|Hin]%elem_of_app; [|by apply Hm2].
  by eapply for_each_mention_grows, Hm1.
Qed.

Lemma loop_completes_marks w processed' w3 :
  loop_completes env w processed' w3 →
  ∀ tweet_id, ELike tweet_id ∈ drop (length (trace w)) (trace w3) →
              str_of_int tweet_id ∈ processed'.
Proof.
  intros (loaded & w0 & me & w1 & batch & w2 & Hload & Hme & Hbatch & _ & Hloop).
  destruct (for_each_mention_marks _ _ _ _ _ _ Hloop) as (evs & Ht3 & Hmarks).
  assert (Ht0 : ∃ l0, trace w0 = trace w ++ l0 ∧ ∀ tweet_id, ELike tweet_id ∉ l0).
  { rewrite load_json_set_run in Hload.
    destruct (fs w !! PROCESSED_MENTIONS_FILE).
    - exists [EOpen PROCESSED_MENTIONS_FILE ReadMode]. simplify_eq. simpl.
      split; [done|]. by intros tweet_id ?%list_elem_of_singleton.
    - exists []. simplify_eq. rewrite app_nil_r. split; [done|].
      intros tweet_id. apply not_elem_of_nil. }
  destruct Ht0 as (l0 & Ht0 & Hl0).
  unfold get_me, external in Hme. unfold get_users_mentions, external in Hbatch.
  simplify_eq. simpl in Ht3. rewrite Ht3, Ht0, <- !app_assoc, drop_app_length.
  intros tweet_id.
  rewrite !elem_of_app, !list_elem_of_singleton.
  intros [Hin|[?|[?|Hin]]]; try done; [by destruct (Hl0 _ Hin)|by apply Hmarks].
Qed.

Lemma writes_of_save processed' w evs3 :
  Forall (λ ev, writes_file ev = false) evs3 →
  count (is_write PROCESSED_MENTIONS_FILE)
    (drop (length (trace w))
       (trace (after (save_json_set env processed' PROCESSED_MENTIONS_FILE)
                 (World (fs w) (trace w ++ evs3))))) = 1%nat.
Proof.
  intros Hquiet. unfold after. rewrite save_json_set_run. simpl.
  destruct (io_fault_at env (trace w ++ evs3) PROCESSED_MENTIONS_FILE WriteMode);
    simpl; rewrite <- app_assoc, drop_app_length, count_app,
             (count_no_write _ _ Hquiet); reflexivity.
Qed.

(** C4, as the code has it.  A cycle opens the dedup file for writing at
    most once.  It does so exactly when the loop has run through the whole
    batch: the save then follows the loop, during which nothing was
    written, and it is given the set the loop ended with, which contains
    every loaded identifier and the identifier of every mention liked,
    that is answered, in this cycle.  A cycle that ends before that, by an early
    return or by an exception caught by the outer handler, writes
    nothing, and the files are as they were before the cycle: the
    identifiers marked during such a cycle are all lost, those persisted
    before are all kept. *)
Theorem dedup_set_written_after_full_loop w :
  let run := bot_respond env in
  let writes := count (is_write PROCESSED_MENTIONS_FILE) (events_of run w) in
  (writes ≤ 1)%nat ∧
  (writes = 1%nat ↔ ∃ processed' w3, loop_completes env w processed' w3) ∧
  (writes = 0%nat → fs (after run w) = fs w) ∧
  (∀ processed' w3,
     loop_completes env w processed' w3 →
     quiet w w3 ∧
     (∀ loaded w0,
        load_json_set env PROCESSED_MENTIONS_FILE w = (Return loaded, w0) →
        loaded ⊆ processed') ∧
     (∀ tweet_id,
        ELike tweet_id ∈ drop (length (trace w)) (trace w3) →
        str_of_int tweet_id ∈ processed') ∧
     after run w = after (save_json_set env processed' PROCESSED_MENTIONS_FILE) w3).
Proof.
  intros run writes.
  destruct (bot_respond_cases w)
    as [(p & w3 & Hdone & Hq & Hsub & Hafter) | (Hnone & Hq)].
  - assert (Hwrites : writes = 1%nat).
    { unfold writes, events_of, run. rewrite Hafter.
      destruct Hq as (evs3 & -> & Hquiet). by apply writes_of_save. }
    clearbody writes. subst writes.
    split; [lia|]. split; [split; [intros _; by eauto|done]|]. split; [done|].
    intros p' w3' Hdone'.
    destruct (loop_completes_unique _ _ _ _ _ Hdone Hdone') as [<- <-].
    split; [done|]. split; [done|]. split; [|done].
    by apply loop_completes_marks.
  - destruct Hq as (evs & Hafter & Hquiet).
    assert (Hwrites : writes = 0%nat).
    { unfold writes, events_of. fold run in Hafter. rewrite Hafter. simpl.
      rewrite drop_app_length. by apply count_no_write. }
    clearbody writes. subst writes. split; [lia|]. split.
    { split; [done|]. intros (p & w3 & Hdone). by destruct (Hnone p w3). }
    split; [intros _; fold run in Hafter; by rewrite Hafter|].
    intros p w3 Hdone. by destruct (Hnone p w3).
Qed.

(** C10, as the code has it.  [save_json_set] returns whatever happens to
    the write, and the cycle that called it returns as well.  A write that
    goes through leaves the array on disk.  A failure to open the file is
    logged and leaves the file as the last save left it.  A failure after
    the file has been opened is logged too, but the file has been emptied
    by then: what the last save wrote is gone. *)
Theorem save_json_set_swallows_write_errors data filename w :
  let run := save_json_set env data filename in
  let failed msg :=
    [EOpen filename WriteMode;
     ELog ERROR (msg_save_failed filename (Exn OSError msg))] in
  outcome run w = Return () ∧
  match io_fault_at env (trace w) filename WriteMode with
  | NoFault =>
      fs (after run w) = <[filename := JsonArray (elements data)]> (fs w) ∧
      events_of run w = [EOpen filename WriteMode]
  | FailOnOpen msg =>
      fs (after run w) = fs w ∧ events_of run w = failed msg
  | FailAfterOpen msg =>
      fs (after run w) = <[filename := Truncated]> (fs w) ∧
      events_of run w = failed msg
  end ∧
  (∀ w0 loaded w1,
     load_json_set env PROCESSED_MENTIONS_FILE w0 = (Return loaded, w1) →
     outcome (bot_respond env) w0 = Return ()).
Proof.
  intros run failed. unfold outcome, after, events_of, after, run.
  rewrite save_json_set_run. simpl. split; [done|]. split.
  - destruct (io_fault_at env (trace w) filename WriteMode); simpl;
      by rewrite drop_app_length.
  - intros w0 loaded w1 Hload. rewrite bot_respond_run, Hload.
    destruct (get_me env w1) as [[[me|]|e] w2]; [|done|done].
    destruct (get_users_mentions env (user_id me) w2) as [[[[|m batch]|]|e] w3];
      [done| |done|done].
    by destruct (for_each_mention env me loaded (m :: batch) w3) as [[p|e] w4].
Qed.

(** C2. A mention whose identifier is in the dedup set costs its turn
    nothing: no call is made, the world and the set are as before.  And in
    a cycle that loaded the identifier from the file, no post of either
    surface replies to that tweet and no like goes to it. *)
Theorem seen_mention_is_skipped seen :
  (∀ me processed m w,
     mention_id m = seen → str_of_int seen ∈ processed →
     respond_to_mention env me processed m w = (Return processed, w)) ∧
  (∀ items w,
     fs w !! PROCESSED_MENTIONS_FILE = Some (JsonArray items) →
     str_of_int seen ∈ items →
     Forall (λ ev, replies_to ev ≠ Some seen) (events_of (bot_respond env) w)).
Proof.
  split.
  { intros me processed m w Hid Hseen. apply respond_to_mention_seen.
    by rewrite Hid. }
  intros items w Hfile Hseen.
  set (P := λ ev, replies_to ev ≠ Some seen).
  assert (Hcycle : appends P (λ _, True)
            (try_except (mentions_cycle env (list_to_set items)) is_Exception
               (λ e, logging ERROR (msg_cycle_error e)))).
  { apply appends_try_except; [|intros e; by apply appends_logging].
    apply mentions_cycle_appends; try done.
    intros m ev p Hsub Hnew Hev.
    assert (mention_id m ≠ seen) as Hother.
    { intros Heq. rewrite Heq in Hnew. apply Hnew, Hsub.
      by apply elem_of_list_to_set. }
    unfold P. destruct ev; simpl in *; try done;
      destruct Hev as [Hev|Hev]; rewrite ?Hev; congruence. }
  unfold events_of, after, bot_respond, bind.
  rewrite load_json_set_run, Hfile.
  destruct (io_fault_at env (trace w) PROCESSED_MENTIONS_FILE ReadMode); simpl.
  - destruct (Hcycle (World (fs w) (trace w ++ [EOpen PROCESSED_MENTIONS_FILE ReadMode])))
      as (evs & Htrace & HP & _).
    unfold after in Htrace. simpl in Htrace. rewrite Htrace.
    rewrite <- app_assoc, drop_app_length. apply Forall_app. split; [|done].
    by repeat constructor.
  - rewrite drop_app_length. by repeat constructor.
  - rewrite drop_app_length. by repeat constructor.
Qed.

(** C5, as the code has it.  For a mention not yet in the set: a lookup
    that comes back without data, and a post for which [safe_post_tweet]
    returns [False], leave the mention unmarked and the loop goes on with
    the next mention; a reply that is posted and liked marks the mention.
    An exception raised by the lookup, by the reply composer, by
    [safe_post_tweet] or by the like ends the loop at once: the later
    mentions of the batch are not looked at. *)
Theorem mention_failure_by_kind me processed m rest w :
  str_of_int (mention_id m) ∉ processed →
  let loop := for_each_mention env me in
  match get_user env (author_id m) w with
  | (Raise e, w1) => loop processed (m :: rest) w = (Raise e, w1)
  | (Return None, w1) => loop processed (m :: rest) w = loop processed rest w1
  | (Return (Some author), w1) =>
      match generate_contextual_response env (username author)
              (user_message_of env me m) w1 with
      | (Raise e, w2) => loop processed (m :: rest) w = (Raise e, w2)
      | (Return response, w2) =>
          match safe_post_tweet env response None (Some (mention_id m)) w2 with
          | (Raise e, w3) => loop processed (m :: rest) w = (Raise e, w3)
          | (Return false, w3) =>
              loop processed (m :: rest) w
              = loop processed rest
                  (log_event ERROR (msg_reply_failed (username author)) w3)
          | (Return true, w3) =>
              match like env (mention_id m) w3 with
              | (Raise e, w4) => loop processed (m :: rest) w = (Raise e, w4)
              | (Return _, w4) =>
                  loop processed (m :: rest) w
                  = loop ({[str_of_int (mention_id m)]} ∪ processed) rest
                      (log_event INFO (msg_replied (username author)) w4)
              end
          end
      end
  end.
Proof.
  intros Hnew loop. unfold loop.
  change (for_each_mention env me processed (m :: rest))
    with (bind (respond_to_mention env me processed m)
            (λ p', for_each_mention env me p' rest)).
  unfold respond_to_mention. rewrite bool_decide_eq_false_2 by done.
  unfold bind. cbv beta.
  destruct (get_user env (author_id m) w) as [[[author|]|e] w1]; [|done|done].
  destruct (generate_contextual_response env (username author)
              (user_message_of env me m) w1) as [[response|e] w2]; [|done].
  destruct (safe_post_tweet env response None (Some (mention_id m)) w2)
    as [[[]|e] w3]; [| |done].
  - by destruct (like env (mention_id m) w3) as [[[]|e] w4].
  - done.
Qed.

End Cycle.

(** ** Concrete cycles *)

(** Finds an element in a list that is written out. *)
Ltac find_in_list :=
  repeat first [apply list_elem_of_here | apply list_elem_of_further].

Lemma seen_mention_is_skipped_witness :
  Forall (λ ev, replies_to ev ≠ Some 42)
    (events_of (bot_respond env_seen_and_new) world_seen_42).
Proof.
  apply (seen_mention_is_skipped env_seen_and_new 42) with (items := [py "42"]).
  - reflexivity.
  - by apply list_elem_of_singleton.
Defined.

(** On the same run the new mention 43 gets one post and one like, and
    the file then holds both identifiers. *)
Example new_mention_is_answered_once :
  let w' := after (bot_respond env_seen_and_new) world_seen_42 in
  count is_v2_post (trace w') = 1%nat ∧
  count is_v1_post (trace w') = 0%nat ∧
  ELike 43 ∈ trace w' ∧
  ∃ items, fs w' !! PROCESSED_MENTIONS_FILE = Some (JsonArray items) ∧
           py "42" ∈ items ∧ py "43" ∈ items.
Proof.
  repeat split; try (vm_compute; reflexivity).
  - vm_compute. find_in_list.
  - eexists. split; [vm_compute; reflexivity|]. split; find_in_list.
Qed.

Lemma mention_failure_by_kind_witness :
  (str_of_int (mention_id mention_43) ∉ (∅ : gset pystr)) ∧
  for_each_mention env_post_refused bot_user ∅ [mention_43; mention_44] empty_world
  = for_each_mention env_post_refused bot_user ∅ [mention_44]
      (log_event ERROR (msg_reply_failed (py "player"))
         (after (safe_post_tweet env_post_refused (py "Your move, @player") None (Some 43))
            (after (generate_contextual_response env_post_refused (py "player")
                      (user_message_of env_post_refused bot_user mention_43))
               (after (get_user env_post_refused 7) empty_world)))).
Proof.
  split; [apply not_elem_of_empty|].
  exact (mention_failure_by_kind env_post_refused bot_user ∅ mention_43 [mention_44]
           empty_world (not_elem_of_empty _)).
Defined.

(** A lookup that finds no author skips the mention and the loop goes on:
    both authors are looked up, nothing is posted, and the cycle ends with
    its one save. *)
Example lookup_without_data_skips_the_mention :
  let run := bot_respond env_no_author in
  events_of run empty_world
  = [EGetMe; EGetUsersMentions 1; EGetUser 7; EGetUser 8;
     EOpen PROCESSED_MENTIONS_FILE WriteMode] ∧
  fs (after run empty_world) !! PROCESSED_MENTIONS_FILE = Some (JsonArray []).
Proof. split; vm_compute; reflexivity. Qed.

(** C4 as stated fails.  The disk knows mention 42; the batch holds 43
    and 44; the reply to 43 is posted and liked, then the lookup of the
    author of 44 raises.  The cycle ends without any write, and the file
    is as before: the mark of 43, which was not the mention in flight, is
    lost. *)
Lemma aborted_cycle_loses_every_new_mark :
  let run := bot_respond env_second_lookup_breaks in
  let w' := after run world_seen_42 in
  outcome run world_seen_42 = Return () ∧
  count is_v2_post (trace w') = 1%nat ∧
  ELike 43 ∈ trace w' ∧
  EGetUser 8 ∈ trace w' ∧
  count (is_write PROCESSED_MENTIONS_FILE) (events_of run world_seen_42) = 0%nat ∧
  fs w' !! PROCESSED_MENTIONS_FILE = Some (JsonArray [py "42"]).
Proof.
  repeat split; try (vm_compute; reflexivity); vm_compute; find_in_list.
Qed.

(** C5 as stated fails.  The lookup of the author of the first mention
    raises; the loop does not go on to the second mention: its author is
    never looked up, nothing is posted, and the cycle ends in the outer
    handler. *)
Lemma failed_lookup_ends_the_batch :
  let run := bot_respond env_first_lookup_breaks in
  events_of run empty_world
  = [EGetMe; EGetUsersMentions 1; EGetUser 7;
     ELog ERROR (msg_cycle_error unavailable_error)] ∧
  (EGetUser (author_id mention_44) ∉ events_of run empty_world) ∧
  posted_texts (events_of run empty_world) = [].
Proof.
  assert (Hevs : events_of (bot_respond env_first_lookup_breaks) empty_world
                 = [EGetMe; EGetUsersMentions 1; EGetUser 7;
                    ELog ERROR (msg_cycle_error unavailable_error)])
    by (vm_compute; reflexivity).
  simpl. rewrite Hevs. repeat split.
  rewrite !not_elem_of_cons. repeat split; try discriminate. apply not_elem_of_nil.
Qed.

(** C10 as stated fails.  The file holds ["42"]; the save of {"42", "43"}
    breaks after the file has been opened.  [save_json_set] returns, but
    the file is left emptied, and the next load finds no JSON in it
    instead of the content of the last successful save. *)
Lemma failed_write_loses_last_save :
  let save := save_json_set env_disk_full {[py "42"; py "43"]} PROCESSED_MENTIONS_FILE in
  let load := load_json_set env_ok PROCESSED_MENTIONS_FILE in
  outcome load world_seen_42 = Return {[py "42"]} ∧
  outcome save world_seen_42 = Return () ∧
  fs (after save world_seen_42) !! PROCESSED_MENTIONS_FILE = Some Truncated ∧
  outcome load (after save world_seen_42)
  = Raise (Exn JSONDecodeError (py "Expecting value")).
Proof. repeat split; vm_compute; reflexivity. Qed.

Lemma load_json_set_reads_the_array_witness :
  load_json_set env_ok PROCESSED_MENTIONS_FILE empty_world = (Return ∅, empty_world) ∧
  ∃ loaded,
    outcome (load_json_set env_ok PROCESSED_MENTIONS_FILE) world_seen_42 = Return loaded ∧
    ∀ s, s ∈ loaded ↔ s ∈ [py "42"].
Proof.
  split.
  - apply (load_json_set_reads_the_array env_ok PROCESSED_MENTIONS_FILE empty_world).
    reflexivity.
  - apply (load_json_set_reads_the_array env_ok PROCESSED_MENTIONS_FILE world_seen_42);
      reflexivity.
Defined.

(** ** The theorems at concrete inputs *)

Lemma fallback_exactly_on_quota_error_witness :
  let run := safe_post_tweet env_quota (py "Your move.") None None in
  count is_v2_post (events_of run empty_world) = 1%nat ∧
  count is_v1_post (events_of run empty_world) = 1%nat ∧
  outcome run empty_world = Return true.
Proof.
  pose proof (fallback_exactly_on_quota_error env_quota (py "Your move.") None None
                empty_world) as (Hv2 & _ & [_ Hv1] & _ & _ & Hquota & _).
  split; [exact Hv2|]. split.
  - apply Hv1. exists quota_error. repeat split; reflexivity.
  - apply (Hquota quota_error); reflexivity.
Defined.

Lemma dedup_set_written_after_full_loop_witness :
  let run := bot_respond env_two_mentions in
  (count (is_write PROCESSED_MENTIONS_FILE) (events_of run world_seen_42) ≤ 1)%nat ∧
  (count (is_write PROCESSED_MENTIONS_FILE) (events_of run world_seen_42) = 0%nat →
   fs (after run world_seen_42) = fs world_seen_42).
Proof.
  pose proof (dedup_set_written_after_full_loop env_two_mentions world_seen_42)
    as (Hle & _ & Hnone & _).
  split; [exact Hle | exact Hnone].
Defined.

Lemma update_keeps_link_witness :
  ∃ tag,
    get_personality_line env_ok empty_world = (Return tag, empty_world) ∧
    len (update_text body_230 tag) ≤ TWITTER_CHAR_LIMIT ∧
    endswith GAME_LINK (update_text body_230 tag) = true.
Proof.
  destruct (update_keeps_link env_ok body_230 empty_world)
    as (t & tag & Hline & _ & _ & _ & Hlen & Hlink & _).
  exists tag. split; [exact Hline|]. split; [exact Hlen | exact Hlink].
Defined.

Lemma webhook_answers_witness :
  game_event no_handlers (Json draw_event) empty_world
  = (Return (ok_body, 200), after (game_event_bridge no_handlers draw_event) empty_world).
Proof.
  exact (proj1 (webhook_answers no_handlers (Json draw_event) empty_world)).
Defined.

Lemma save_json_set_swallows_write_errors_witness :
  outcome (save_json_set env_disk_full {[py "42"; py "43"]} PROCESSED_MENTIONS_FILE)
    world_seen_42 = Return ().
Proof.
  exact (proj1 (save_json_set_swallows_write_errors env_disk_full {[py "42"; py "43"]}
                  PROCESSED_MENTIONS_FILE world_seen_42)).
Defined.

(** Two more runs of the shim: a refusal that is no quota error gets no
    fallback, and a failed fallback is not tried again. *)
Example refused_post_gets_no_fallback :
  let run := safe_post_tweet env_post_refused (py "Your move.") None None in
  outcome run empty_world = Return false ∧
  count is_v2_post (events_of run empty_world) = 1%nat ∧
  count is_v1_post (events_of run empty_world) = 0%nat.
Proof. repeat split; vm_compute; reflexivity. Qed.

Example failed_fallback_is_final :
  let run := safe_post_tweet env_both_fail (py "Your move.") None None in
  outcome run empty_world = Return false ∧
  count is_v2_post (events_of run empty_world) = 1%nat ∧
  count is_v1_post (events_of run empty_world) = 1%nat.
Proof. repeat split; vm_compute; reflexivity. Qed.

(** * Further properties *)

(** ** Saving and loading *)

Section Persistence.

Context (env : Env).

(** X1. What [save_json_set] writes, [load_json_set] reads back: when
    neither the write nor the following read meets an I/O fault, loading
    the file just saved returns the very set that was saved. *)
Theorem save_then_load_round_trip data filename w :
  io_fault_at env (trace w) filename WriteMode = NoFault →
  io_fault_at env (trace w ++ [EOpen filename WriteMode]) filename ReadMode = NoFault →
  outcome (save_json_set env data filename;; load_json_set env filename) w
  = Return data.
Proof.
  intros Hwrite Hread. unfold outcome, bind.
  rewrite save_json_set_run, Hwrite, load_json_set_run. simpl.
  rewrite lookup_insert_eq, Hread. simpl. f_equal.
  apply list_to_set_elements_L.
Qed.

(** X2. Of the files other than the log file, [save_json_set] touches
    only its own: whatever happens to the write, every other one is as
    before.  (A failed write adds its line to the log.) *)
Theorem save_json_set_leaves_other_files data filename other w :
  other ≠ filename →
  other ≠ LOG_FILE →
  fs (after (save_json_set env data filename) w) !! other = fs w !! other.
Proof.
  intros Hother _. unfold after. rewrite save_json_set_run. simpl.
  destruct (io_fault_at env (trace w) filename WriteMode); simpl;
    by rewrite ?lookup_insert_ne.
Qed.

(** X3. The only exception that leaves [bot_respond] is one raised by
    the load, which stands before the [try].  The cycle then ends after
    opening the file, with no call to the platform.  In particular a
    dedup file that a failed save left emptied makes every later cycle
    end this way. *)
Theorem cycle_fails_only_on_load w :
  (∀ e, outcome (bot_respond env) w = Raise e ↔
        outcome (load_json_set env PROCESSED_MENTIONS_FILE) w = Raise e) ∧
  (∀ e, outcome (load_json_set env PROCESSED_MENTIONS_FILE) w = Raise e →
        events_of (bot_respond env) w = [EOpen PROCESSED_MENTIONS_FILE ReadMode] ∧
        fs (after (bot_respond env) w) = fs w) ∧
  (fs w !! PROCESSED_MENTIONS_FILE = Some Truncated →
   io_fault_at env (trace w) PROCESSED_MENTIONS_FILE ReadMode = NoFault →
   outcome (bot_respond env) w = Raise (Exn JSONDecodeError (py "Expecting value"))).
Proof.
  assert (Hiff : ∀ e, outcome (bot_respond env) w = Raise e ↔
                      outcome (load_json_set env PROCESSED_MENTIONS_FILE) w = Raise e).
  { intros e. unfold outcome. rewrite bot_respond_run.
    destruct (load_json_set env PROCESSED_MENTIONS_FILE w) as [[loaded|e'] w0];
      [|simpl; split; by intros [= ->]].
    destruct (get_me env w0) as [[[me|]|e1] w1]; [|by split|by split].
    destruct (get_users_mentions env (user_id me) w1) as [[[[|m batch]|]|e2] w2];
      [by split| |by split|by split].
    by destruct (for_each_mention env me loaded (m :: batch) w2) as [[p|e3] w3]; split. }
  split; [done|]. split.
  - intros e Hload. unfold events_of, after. rewrite bot_respond_run.
    unfold outcome in Hload. rewrite load_json_set_run in *.
    destruct (fs w !! PROCESSED_MENTIONS_FILE) as [content|]; [|done].
    simpl in *. rewrite Hload. simpl. by rewrite drop_app_length.
  - intros Hfile Hread. apply Hiff. unfold outcome.
    by rewrite load_json_set_run, Hfile, Hread.
Qed.

(** X4. Identifiers only accumulate on disk: when the loop of a cycle
    runs to its end and the save meets no I/O fault, the file holds the
    final set of the loop, and every identifier that was in the file
    before the cycle is still in it. *)
Theorem persisted_identifiers_accumulate w items processed' w3 :
  fs w !! PROCESSED_MENTIONS_FILE = Some (JsonArray items) →
  loop_completes env w processed' w3 →
  io_fault_at env (trace w3) PROCESSED_MENTIONS_FILE WriteMode = NoFault →
  fs (after (bot_respond env) w) !! PROCESSED_MENTIONS_FILE
    = Some (JsonArray (elements processed')) ∧
  ∀ s, s ∈ items → s ∈ elements processed'.
Proof.
  intros Hfile Hdone Hwrite.
  destruct (bot_respond_cases env w)
    as [(p & a3 & Hdone' & _ & Hsub & Hafter) | (Hnone & _)];
    [|by destruct (Hnone processed' w3)].
  destruct (loop_completes_unique _ _ _ _ _ _ Hdone Hdone') as [<- <-].
  split.
  - rewrite Hafter. unfold after. rewrite save_json_set_run, Hwrite. simpl.
    apply lookup_insert_eq.
  - intros s Hs. apply elem_of_elements.
    destruct Hdone as (loaded & w0 & _ & _ & _ & _ & Hload & _).
    apply (Hsub loaded w0 Hload).
    rewrite load_json_set_run, Hfile in Hload.
    destruct (io_fault_at env (trace w) PROCESSED_MENTIONS_FILE ReadMode);
      simplify_eq. by apply elem_of_list_to_set.
Qed.

End Persistence.

(** ** More on the posting shim *)

Section ShimInvariants.

Context (env : Env).

Lemma len_truncate_text text reply :
  len (truncate_text text reply) ≤ TWITTER_CHAR_LIMIT.
Proof.
  unfold truncate_text, slice_to, TWITTER_CHAR_LIMIT.
  case_bool_decide as Hlong; [|lia].
  rewrite !bool_decide_eq_true_2 by lia.
  destruct (id_given reply); rewrite len_app, len_take.
  - change (len (py "...")) with 3. lia.
  - change (len ELLIPSIS) with 1. lia.
Qed.

(** X5. Whatever the input, [safe_post_tweet] changes no file other
    than the log file, to which its lines go, and hands no text longer
    than the limit to either surface.  Its first
    call is the v2 call, which never carries an empty media list or the
    identifier 0; and a fallback call carries the same text, media and
    reply target as the v2 call, asking for automatic reply metadata
    exactly when it replies. *)
Theorem shim_calls_agree_and_fit text media_ids reply w :
  let run := safe_post_tweet env text media_ids reply in
  (∀ f, f ≠ LOG_FILE → fs (after run w) !! f = fs w !! f) ∧
  Forall (λ t, len t ≤ TWITTER_CHAR_LIMIT) (posted_texts (events_of run w)) ∧
  ∃ kw2 tail,
    events_of run w = ECreateTweet kw2 :: tail ∧
    kw_media_ids kw2 ≠ Some [] ∧ kw_in_reply_to_tweet_id kw2 ≠ Some 0 ∧
    Forall (λ ev,
              is_log ev = true ∨
              ∃ kw1, ev = EUpdateStatus kw1 ∧
                     kw_status kw1 = kw_text kw2 ∧
                     kw_status_media_ids kw1 = kw_media_ids kw2 ∧
                     kw_in_reply_to_status_id kw1 = kw_in_reply_to_tweet_id kw2 ∧
                     kw_auto_populate_reply_metadata kw1
                     = match kw_in_reply_to_status_id kw1 with
                       | Some _ => Some true
                       | None => None
                       end) tail.
Proof.
  intros run. subst run.
  destruct (safe_post_tweet_events env text media_ids reply w)
    as (r & tail & Hrun & Htail).
  pose proof (events_of_run _ _ _ _ _ Hrun) as Hevs.
  rewrite Hevs. split; [intros f _; by rewrite (after_run _ _ _ _ Hrun)|]. split.
  - simpl. apply Forall_cons_2; [apply len_truncate_text|].
    eapply Forall_impl; [exact (fallback_texts _ _ Htail)|].
    intros t ->. apply len_truncate_text.
  - eexists _, tail. split; [done|]. split; [|split].
    + simpl. by destruct media_ids as [[|]|].
    + simpl. destruct reply as [n|]; simpl; [|done].
      case_bool_decide; simpl; congruence.
    + eapply Forall_impl; [exact Htail|].
      intros ev [Hlog| ->]; [by left|right]. eexists. split; [done|].
      simpl. repeat split. destruct reply as [n|]; simpl; [|done].
      by case_bool_decide.
Qed.

End ShimInvariants.

(** ** More on the mention loop *)

Section LoopInvariants.

Context (env : Env).

Lemma appends_events {A} (P : event → Prop) (Q : A → Prop) (c : M A) w :
  appends P Q c → Forall P (events_of c w).
Proof.
  intros Hc. destruct (Hc w) as (evs & Ht & HP & _).
  unfold events_of. by rewrite Ht, drop_app_length.
Qed.

Lemma for_each_mention_appends_in (P : event → Prop) me processed mentions :
  (∀ m ev, m ∈ mentions → turn_event m ev → P ev) →
  appends P (λ _, True) (for_each_mention env me processed mentions).
Proof.
  revert processed. induction mentions as [|m rest IH]; intros processed HP; simpl.
  - by apply appends_ret.
  - eapply appends_bind.
    + eapply appends_weaken; [|done|apply turn_events].
      intros ev. apply HP. apply list_elem_of_here.
    + intros p' _. apply IH. intros m' ev Hin. apply HP.
      by apply list_elem_of_further.
Qed.

(** X6. Every reply the loop posts, on either surface, and every like
    it sends, goes to a mention of the batch it was given. *)
Theorem replies_go_to_batch_mentions me processed mentions w :
  Forall (λ ev, ∀ tweet_id, replies_to ev = Some tweet_id →
                ∃ m, m ∈ mentions ∧ mention_id m = tweet_id)
    (events_of (for_each_mention env me processed mentions) w).
Proof.
  eapply appends_events, for_each_mention_appends_in.
  intros m ev Hin Hev tweet_id Hreply. exists m. split; [done|].
  destruct ev; simpl in *; try done; destruct Hev; congruence.
Qed.

(** X7. A batch that lists a mention twice gets it answered once: after
    a turn in which the mention was liked, and so answered and marked, no
    later turn of the loop replies to it or likes it again. *)
Theorem answered_mention_is_not_answered_twice me processed m rest w p1 w1 :
  respond_to_mention env me processed m w = (Return p1, w1) →
  ELike (mention_id m) ∈ drop (length (trace w)) (trace w1) →
  Forall (λ ev, replies_to ev ≠ Some (mention_id m))
    (events_of (for_each_mention env me p1 rest) w1).
Proof.
  intros Hturn Hliked.
  destruct (respond_to_mention_marks _ _ _ _ _ _ _ Hturn) as (evs & Ht & Hmarks).
  rewrite Ht, drop_app_length in Hliked. apply Hmarks in Hliked.
  eapply appends_events, for_each_mention_appends.
  intros m' ev p Hsub Hnew Hev.
  assert (mention_id m' ≠ mention_id m) as Hother.
  { intros Heq. rewrite Heq in Hnew. by apply Hnew, Hsub. }
  destruct ev; simpl in *; try done; destruct Hev as [Hev|Hev]; congruence.
Qed.

End LoopInvariants.

(** ** More on the event bridge *)

Section BridgeDispatch.

Context (handlers : Handlers).

(** X8. An event whose [type] is one of the six known strings is handed
    to the handler of that name and to no other; the bridge then logs
    the event when the handler returns, logs the error when it raises,
    and returns in both cases.  The comparison is exact: the type must
    be that very string. *)
Theorem known_event_runs_its_handler members etype w :
  dict_lookup (py "type") members = Some etype →
  let event := JObj members in
  let bridge := game_event_bridge handlers event w in
  (etype = JStr (py "win") →
     bridge = settle event (handle_win_event handlers event w)) ∧
  (etype = JStr (py "game_start") →
     bridge = settle event (handle_game_start_event handlers event w)) ∧
  (etype = JStr (py "tournament") →
     bridge = settle event (handle_tournament_event handlers event w)) ∧
  (etype = JStr (py "achievement") →
     bridge = settle event (handle_achievement_event handlers event w)) ∧
  (etype = JStr (py "challenge") →
     bridge = settle event (handle_challenge_event handlers event w)) ∧
  (etype = JStr (py "leaderboard") →
     bridge = settle event (handle_leaderboard_event handlers event w)).
Proof.
  intros Hlookup event bridge. subst bridge.
  rewrite game_event_bridge_run.
  unfold bridge_body, bind, json_get. simpl. rewrite Hlookup. simpl.
  repeat split; intros ->;
    match goal with
    | |- context [dispatch _ _ _ w] =>
        match goal with
        | |- _ = settle _ ?run =>
            change (dispatch handlers _ event w) with run;
            by destruct run as [[[]|e] w']
        end
    end.
Qed.

(** X9. A payload that is not an object has no [get]: the bridge logs
    the error, runs no handler and returns; and since the webhook only
    tests the truth value of the body, such a payload, when truthy, is
    still answered 200. *)
Theorem non_object_event_is_logged event w :
  match event with JObj _ => False | _ => True end →
  let e := Exn AttributeError (py "object has no attribute 'get'") in
  let w' := log_event ERROR (msg_bridge_error e) w in
  game_event_bridge handlers event w = (Return (), w') ∧
  (truthy event = true →
   game_event handlers (Json event) w = (Return (ok_body, 200), w')).
Proof.
  intros Hshape e w'.
  assert (Hbridge : game_event_bridge handlers event w = (Return (), w')).
  { rewrite game_event_bridge_run. by destruct event. }
  split; [done|]. intros Htruthy.
  unfold game_event, bind. simpl. rewrite Htruthy. simpl. by rewrite Hbridge.
Qed.

End BridgeDispatch.

(** ** Credentials *)

Lemma missing_credentials_spec environ key :
  key ∈ missing_credentials environ ↔
  key ∈ REQUIRED_CREDENTIALS ∧ not_set (environ !! key) = true.
Proof.
  unfold missing_credentials, required_credentials.
  rewrite list_elem_of_omap. split.
  - intros ([k v] & Hin & Hmissing). simpl in Hmissing.
    apply list_elem_of_fmap in Hin as (k' & [= -> ->] & Hin).
    destruct (not_set (environ !! k')) eqn:Hset; by simplify_eq.
  - intros [Hin Hset]. exists (key, environ !! key). split.
    + apply list_elem_of_fmap. by exists key.
    + simpl. by rewrite Hset.
Qed.

(** X10. The module loads exactly when each of the five required
    variables is set to a non-empty string.  The variables reported
    missing are the required ones that are unset or empty, and the token
    of the text generator is not among those looked at: setting or
    removing it changes nothing. *)
Theorem credentials_are_required environ :
  (validate_credentials environ = Return () ↔
     ∀ key, key ∈ REQUIRED_CREDENTIALS →
            ∃ value, environ !! key = Some value ∧ value ≠ []) ∧
  (∀ key, key ∈ missing_credentials environ ↔
          key ∈ REQUIRED_CREDENTIALS ∧ not_set (environ !! key) = true) ∧
  (∀ token, validate_credentials (<[py "HUGGING_FACE_TOKEN" := token]> environ)
            = validate_credentials environ) ∧
  validate_credentials (delete (py "HUGGING_FACE_TOKEN") environ)
  = validate_credentials environ.
Proof.
  split; [|split; [apply missing_credentials_spec|]].
  - unfold validate_credentials.
    destruct (missing_credentials environ) as [|key missing] eqn:Hmissing.
    + split; [|done]. intros _ key Hin.
      assert (not_set (environ !! key) = false) as Hset.
      { destruct (not_set (environ !! key)) eqn:Hset; [|done].
        assert (key ∈ missing_credentials environ) as Hin'
          by by apply missing_credentials_spec.
        rewrite Hmissing in Hin'. by apply elem_of_nil in Hin'. }
      destruct (environ !! key) as [[|c value]|]; try done. by eexists.
    + split; [done|]. intros Hall.
      assert (key ∈ missing_credentials environ) as Hin
        by (rewrite Hmissing; apply list_elem_of_here).
      apply missing_credentials_spec in Hin as [Hin Hset].
      destruct (Hall key Hin) as (value & Hvalue & Hne).
      unfold pystr in *. rewrite Hvalue in Hset. by destruct value.
  - assert (Hsame : ∀ environ', (∀ key, key ∈ REQUIRED_CREDENTIALS →
                                      environ' !! key = environ !! key) →
                      validate_credentials environ' = validate_credentials environ).
    { intros environ' Hkeys. unfold validate_credentials, missing_credentials,
        required_credentials.
      assert ((λ key, (key, environ' !! key)) <$> REQUIRED_CREDENTIALS
              = (λ key, (key, environ !! key)) <$> REQUIRED_CREDENTIALS) as ->; [|done].
      apply list_fmap_ext. intros i key Hkey. f_equal. apply Hkeys.
      by eapply list_elem_of_lookup_2. }
    split; [intros token|]; apply Hsame; intros key Hin.
    + apply lookup_insert_ne. intros <-. revert Hin. unfold REQUIRED_CREDENTIALS.
      rewrite !elem_of_cons, elem_of_nil. by vm_compute; intros [?|[?|[?|[?|[?|[]]]]]].
    + apply lookup_delete_ne. intros <-. revert Hin. unfold REQUIRED_CREDENTIALS.
      rewrite !elem_of_cons, elem_of_nil. by vm_compute; intros [?|[?|[?|[?|[?|[]]]]]].
Qed.

(** ** More on updates and the activation message *)

Section UpdateBounds.

Context (env : Env).

Lemma tone_line_lengths t :
  Forall (λ line, 13 ≤ len line ≤ 56) (PERSONALITY_TONES t).
Proof. destruct t; apply (bool_decide_unpack _); by vm_compute. Qed.

Lemma len_assembled_text text tag :
  len (assembled_text text tag) = 47 + len text + len tag.
Proof.
  unfold assembled_text. rewrite !len_app.
  change (len GAMEPAD) with 1. change (len (py " ")) with 1.
  change (len BOT_NAME) with 9. change (len (py " UPDATE ")) with 8.
  change (len NL) with 1. change (len GAME_LINK) with 21. lia.
Qed.

Lemma post_update_first_event text tag w :
  get_personality_line env w = (Return tag, w) →
  ∃ rest, events_of (post_update env text) w
          = ECreateTweet (v2_kwargs (update_text text tag) None None) :: rest.
Proof.
  intros Hline.
  assert (Hfit : truncate_text (update_text text tag) None = update_text text tag).
  { unfold truncate_text. rewrite bool_decide_eq_false_2; [done|].
    pose proof (len_update_text text tag). lia. }
  destruct (safe_post_tweet_events env (update_text text tag) None None w)
    as (r & tail & Hrun & _).
  rewrite Hfit in Hrun.
  unfold events_of, after, post_update, bind. rewrite Hline. simpl.
  rewrite Hrun. destruct r as [[]|e]; simpl;
    rewrite <- ?app_assoc, drop_app_length; simpl; eauto.
Qed.

(** X11. Whether an update keeps its personality line is decided by the
    length of the body alone at both ends: the line drawn has between 13
    and 56 characters, so a body of at most 177 characters is always
    posted whole, with header, line and link, and a body of more than 220
    characters is always posted without header and line. *)
Theorem update_body_thresholds text w :
  ∃ tag,
    get_personality_line env w = (Return tag, w) ∧
    13 ≤ len tag ≤ 56 ∧
    (∃ rest, events_of (post_update env text) w
             = ECreateTweet (v2_kwargs (update_text text tag) None None) :: rest) ∧
    (len text ≤ 177 → update_text text tag = assembled_text text tag) ∧
    (len text > 220 →
       update_text text tag
       = GAMEPAD ++ py " " ++ take 255 text ++ NL ++ NL ++ GAME_LINK).
Proof.
  destruct (get_personality_line_run env w) as (t & tag & Hline & Htag).
  pose proof (tone_line_lengths t) as Hlens. rewrite Forall_forall in Hlens.
  specialize (Hlens tag Htag).
  exists tag. split; [done|]. split; [done|].
  split; [by apply post_update_first_event|].
  pose proof (len_assembled_text text tag) as Hlen. split; intros Htext.
  - apply update_text_whole. unfold TWITTER_CHAR_LIMIT. lia.
  - apply update_text_cut. unfold TWITTER_CHAR_LIMIT. lia.
Qed.

Lemma choice_run msgs w :
  choice env msgs w
  = match msgs with
    | [] => (Raise (Exn OtherException (py "Cannot choose from an empty sequence")), w)
    | _ => (Return (nth (random_index env (trace w) `mod` length msgs)%nat msgs []), w)
    end.
Proof. by destruct msgs. Qed.

(** The activation block, once a message is drawn. *)
Lemma activation_run msgs msg w :
  choice env msgs w = (Return msg, w) →
  activation env msgs w
  = match safe_post_tweet env (activation_text msg) None None w with
    | (Return true, w') =>
        (Return (), log_event INFO [Lit (py "Activation message posted")] w')
    | (Return false, w') =>
        (Return (),
         log_event WARNING
           [Lit (py "Activation tweet failed (may be duplicate or tier issue)")] w')
    | (Raise e, w') =>
        (Return (), log_event WARNING [Lit (py "Activation error: "); Err e] w')
    end.
Proof.
  intros Hdrawn. unfold activation, try_except, bind. rewrite Hdrawn.
  by destruct (safe_post_tweet env (activation_text msg) None None w) as [[[]|e] w'].
Qed.

(** X12. The activation block never raises and changes no file other
    than the log file; with an empty list of messages it posts nothing
    and only logs the warning. *)
Theorem activation_never_raises msgs w :
  outcome (activation env msgs) w = Return () ∧
  (∀ f, f ≠ LOG_FILE → fs (after (activation env msgs) w) !! f = fs w !! f) ∧
  (msgs = [] →
   events_of (activation env msgs) w
   = [ELog WARNING
        [Lit (py "Activation error: ");
         Err (Exn OtherException (py "Cannot choose from an empty sequence"))]]).
Proof.
  destruct msgs as [|msg0 msgs'].
  { unfold outcome, after, events_of, after. simpl.
    by rewrite drop_app_length. }
  pose proof (choice_run (msg0 :: msgs') w) as Hdrawn. cbv iota in Hdrawn.
  unfold outcome, after. rewrite (activation_run _ _ _ Hdrawn).
  destruct (safe_post_tweet_events env
              (activation_text (nth (random_index env (trace w) `mod`
                                       length (msg0 :: msgs'))%nat (msg0 :: msgs') []))
              None None w) as (r & tail & Hrun & _).
  rewrite Hrun. by destruct r as [[]|e].
Qed.

(** X13. An activation message longer than the limit is cut to its
    first 260 characters, then ["... "] and the game link are appended,
    which gives 285 characters; [safe_post_tweet] therefore truncates
    again, and what reaches the platform is the first 260 characters of
    the message followed by the ellipsis character: the link is gone. *)
Theorem long_activation_message_loses_link msgs msg w :
  choice env msgs w = (Return msg, w) →
  len msg > TWITTER_CHAR_LIMIT →
  let posted := take 260 msg ++ ELLIPSIS in
  len (activation_text msg) = 285 ∧
  (∃ rest, events_of (activation env msgs) w
           = ECreateTweet (v2_kwargs posted None None) :: rest) ∧
  Forall (λ t, t = posted) (posted_texts (events_of (activation env msgs) w)) ∧
  endswith GAME_LINK posted = false.
Proof.
  intros Hdrawn Hlong posted. unfold TWITTER_CHAR_LIMIT in Hlong.
  assert (Hlen260 : length (take 260 msg) = 260%nat).
  { rewrite length_take. unfold len in Hlong. lia. }
  assert (Htext : activation_text msg = take 260 msg ++ py "... " ++ GAME_LINK).
  { unfold activation_text, slice_to.
    by rewrite !bool_decide_eq_true_2 by (unfold TWITTER_CHAR_LIMIT; lia). }
  assert (Hlen : len (activation_text msg) = 285).
  { rewrite Htext, !len_app. unfold len at 1. rewrite Hlen260. reflexivity. }
  assert (Hcut : truncate_text (activation_text msg) None = posted).
  { unfold truncate_text, slice_to. simpl.
    rewrite !bool_decide_eq_true_2 by (unfold TWITTER_CHAR_LIMIT; lia).
    rewrite Htext. unfold posted. f_equal. by apply take_app_length'. }
  destruct (safe_post_tweet_events env (activation_text msg) None None w)
    as (r & tail & Hrun & Htail).
  rewrite Hcut in Hrun, Htail.
  assert (Hevs : ∃ more, events_of (activation env msgs) w
                         = ECreateTweet (v2_kwargs posted None None) :: tail ++ more
                         ∧ Forall (λ ev, is_log ev = true) more).
  { unfold events_of, after. rewrite (activation_run _ _ _ Hdrawn), Hrun.
    exists [match r with
            | Return true => ELog INFO [Lit (py "Activation message posted")]
            | Return false =>
                ELog WARNING
                  [Lit (py "Activation tweet failed (may be duplicate or tier issue)")]
            | Raise e => ELog WARNING [Lit (py "Activation error: "); Err e]
            end].
    destruct r as [[]|e]; simpl; rewrite <- app_assoc, drop_app_length; simpl;
      (split; [done|by repeat constructor]). }
  destruct Hevs as (more & -> & Hmore).
  split; [done|]. split; [eauto|]. split.
  - simpl. constructor; [done|]. unfold posted_texts. rewrite omap_app.
    apply Forall_app. split.
    + exact (fallback_texts (v1_kwargs posted None None) tail Htail).
    + fold (posted_texts more). by rewrite logs_post_nothing.
  - unfold endswith, posted. rewrite reverse_app. reflexivity.
Qed.

End UpdateBounds.

(** ** Media, the text generator and the broadcast *)

Section HostedProperties.

Context (env : Env) (host : Host).

Lemma filter_nothing (names : list pystr) :
  Forall (λ f, is_media_file env f = false) names →
  List.filter (is_media_file env) names = [].
Proof.
  induction 1 as [|f names Hf _ IH]; [done|]. simpl. by rewrite Hf.
Qed.

(** The three ways [get_random_media_id] can go. *)
Lemma get_random_media_id_cases x :
  get_random_media_id env host x = (Return None, x)
  ∨ (∃ e, get_random_media_id env host x = (Raise e, x) ∧
          media_folder host x = Some (Raise e))
  ∨ (∃ names f,
       media_folder host x = Some (Return names) ∧
       f ∈ names ∧ is_media_file env f = true ∧
       let media_path := path_join MEDIA_FOLDER f in
       get_random_media_id env host x
       = match api_media_upload host x media_path with
         | Return media_id =>
             (Return (Some media_id),
              XWorld (base x) (uploads x ++ [media_path]) (llm_requests x))
         | Raise e =>
             (Return None,
              XWorld (log_event ERROR (msg_upload_failed e) (base x))
                (uploads x ++ [media_path]) (llm_requests x))
         end).
Proof.
  destruct x as [w ups reqs]. unfold get_random_media_id.
  destruct (media_folder host (XWorld w ups reqs)) as [[names|e]|] eqn:Hfolder;
    [|right; left; by exists e|by left].
  destruct (List.filter (is_media_file env) names) as [|f0 files] eqn:Hfiles;
    [by left|].
  right. right.
  set (f := nth (random_index env (trace w) `mod` length (f0 :: files))%nat
              (f0 :: files) []).
  assert (Hin : In f (List.filter (is_media_file env) names)).
  { rewrite Hfiles. apply nth_In, Nat.mod_upper_bound. simpl. lia. }
  apply filter_In in Hin as [Hin Hmedia].
  exists names, f. split; [done|]. split; [by apply list_elem_of_In|].
  split; [done|].
  unfold xbind, lift, random_choice, xtry_except, media_upload, logging, emit. simpl.
  fold f. by destruct (api_media_upload host (XWorld w ups reqs) _).
Qed.

(** X14. Without a media folder, or with a folder that holds no file
    with one of the five extensions, [get_random_media_id] returns
    [None] and nothing is uploaded or logged. *)
Theorem no_media_file_no_upload x :
  (media_folder host x = None ∨
   ∃ names, media_folder host x = Some (Return names) ∧
            Forall (λ f, is_media_file env f = false) names) →
  get_random_media_id env host x = (Return None, x).
Proof.
  intros [Hfolder|(names & Hfolder & Hnone)]; unfold get_random_media_id;
    rewrite Hfolder; [done|]. by rewrite filter_nothing.
Qed.

(** X15. [get_random_media_id] uploads at most one file, and a file it
    uploads is one the folder lists under a name that ends, case
    ignored, with one of the five extensions; the identifier returned is
    the one the upload gave, and a failed upload is logged and gives
    [None].  The only exception that can leave the function is one
    raised by listing the folder, which stands outside the [try]. *)
Theorem upload_is_of_a_listed_media_file x :
  let run := get_random_media_id env host in
  (∀ e, xoutcome run x = Raise e →
        media_folder host x = Some (Raise e) ∧ xafter run x = x) ∧
  fs (base (xafter run x)) = fs (base x) ∧
  (uploads (xafter run x) = uploads x ∧
   (∀ media_id, xoutcome run x ≠ Return (Some media_id))
   ∨ ∃ names f,
       media_folder host x = Some (Return names) ∧
       f ∈ names ∧ is_media_file env f = true ∧
       uploads (xafter run x) = uploads x ++ [path_join MEDIA_FOLDER f] ∧
       xoutcome run x
       = match api_media_upload host x (path_join MEDIA_FOLDER f) with
         | Return media_id => Return (Some media_id)
         | Raise _ => Return None
         end).
Proof.
  intros run. unfold xoutcome, xafter, run.
  destruct (get_random_media_id_cases x)
    as [Hrun|[(e & Hrun & Hfolder)|(names & f & Hfolder & Hin & Hmedia & Hrun)]].
  - rewrite Hrun. simpl. split; [done|]. split; [done|]. by left.
  - rewrite Hrun. simpl. split; [by intros e' [= <-]|]. split; [done|]. by left.
  - simpl in Hrun. rewrite Hrun.
    destruct (api_media_upload host x (path_join MEDIA_FOLDER f)) eqn:Hupload; simpl;
      (split; [done|]); (split; [done|]); right;
      exists names, f; by rewrite Hupload.
Qed.

(** The text generator, once a token is there. *)
Lemma generate_llm_response_run c token prompt max_tokens x :
  HUGGING_FACE_TOKEN host = Some (c :: token) →
  let request := llm_request_for (c :: token) prompt max_tokens in
  let x1 := XWorld (base x) (uploads x) (llm_requests x ++ [request]) in
  let failed e :=
    (Return None,
     XWorld (log_event ERROR (msg_llm_failed e) (base x)) (uploads x)
       (llm_requests x ++ [request])) in
  generate_llm_response host prompt max_tokens x
  = match requests_post host x request with
    | Raise e => failed e
    | Return response =>
        if bool_decide (status_code response = 200) then
          match response_json response with
          | Raise e => failed e
          | Return (JArr (first :: _)) =>
              match generated_text first with
              | Return text => (Return (Some text), x1)
              | Raise e => failed e
              end
          | Return _ => (Return None, x1)
          end
        else (Return None, x1)
    end.
Proof.
  intros Htoken request x1 failed.
  unfold generate_llm_response. rewrite Htoken.
  unfold xbind, xtry_except, llm_attempt, xbind, post_to_model, lift, logging, emit.
  simpl. fold request.
  destruct (requests_post host x request) as [response|e]; [|done].
  case_bool_decide; [|done].
  destruct (response_json response) as [[| | | | |[|first others]|]|e]; try done.
  by destruct (generated_text first).
Qed.


(** X17. [generate_llm_response] returns a text exactly when a token
    is set, the service answers with status 200 and a JSON list that is
    not empty, and the first element is an object whose
    [generated_text], if present, is a string; the text is that string
    stripped.  An object without the key gives the empty string, not
    [None]. *)
Theorem llm_text_comes_from_first_element prompt max_tokens x text :
  (xoutcome (generate_llm_response host prompt max_tokens) x = Return (Some text) ↔
   ∃ token response first others,
     HUGGING_FACE_TOKEN host = Some token ∧ token ≠ [] ∧
     requests_post host x (llm_request_for token prompt max_tokens) = Return response ∧
     status_code response = 200 ∧
     response_json response = Return (JArr (first :: others)) ∧
     generated_text first = Return text) ∧
  (∀ members s,
     generated_text (JObj members)
     = Return s ↔
       (dict_lookup (py "generated_text") members = None ∧ s = [])
       ∨ ∃ raw, dict_lookup (py "generated_text") members = Some (JStr raw) ∧
                s = strip raw).
Proof.
  split.
  - unfold xoutcome.
    destruct (HUGGING_FACE_TOKEN host) as [[|c token]|] eqn:Htoken.
    + unfold generate_llm_response. rewrite Htoken. simpl. split; [done|].
      by intros (token & ? & ? & ? & [= <-] & ? & _).
    + rewrite (generate_llm_response_run c token prompt max_tokens x Htoken).
      split.
      * intros Hout. exists (c :: token).
        destruct (requests_post host x _) as [response|e]; [|done].
        case_bool_decide as Hstatus; [|done].
        destruct (response_json response) as [[| | | | |[|first others]|]|e] eqn:Hjson;
          try done.
        destruct (generated_text first) as [text'|e] eqn:Htext; [|done].
        simpl in Hout. simplify_eq. by exists response, first, others.
      * intros (token0 & response & first & others & [= <-] & _ & Hpost & Hstatus
                & Hjson & Htext).
        rewrite Hpost, bool_decide_eq_true_2, Hjson, Htext by done. done.
    + unfold generate_llm_response. rewrite Htoken. simpl. split; [done|].
      by intros (token & ? & ? & ? & [= ] & _).
  - intros members s. unfold generated_text.
    destruct (dict_lookup (py "generated_text") members) as [[| | | |raw| |]|];
      simpl; split; try done;
      try (by intros [[[= ] _]|(raw' & [= ] & _)]).
    + intros [= <-]. right. by exists raw.
    + by intros [[[= ] _]|(raw' & [= <-] & ->)].
    + intros [= <-]. by left.
    + by intros [[_ ->]|(raw' & [= ] & _)].
Qed.

(** The choice of media either changes nothing and attaches nothing, or
    ends the broadcast with the error of the folder listing, or has made
    one upload. *)
Lemma broadcast_media_cases x :
  broadcast_media env host x = (Return None, x)
  ∨ (∃ e, broadcast_media env host x = (Raise e, x))
  ∨ (wants_media (random_random env (trace (base x))) = true ∧
     ∃ media_path,
       let ups := uploads x ++ [media_path] in
       match api_media_upload host x media_path with
       | Return (c :: id) =>
           broadcast_media env host x
           = (Return (Some [c :: id]), XWorld (base x) ups (llm_requests x))
       | Return [] =>
           broadcast_media env host x
           = (Return None, XWorld (base x) ups (llm_requests x))
       | Raise e =>
           broadcast_media env host x
           = (Return None,
              XWorld (log_event ERROR (msg_upload_failed e) (base x)) ups
                (llm_requests x))
       end).
Proof.
  destruct x as [w ups reqs]. unfold broadcast_media, xbind, lift. simpl.
  destruct (wants_media (random_random env (trace w))) eqn:Hroll; [|by left].
  destruct (get_random_media_id_cases (XWorld w ups reqs))
    as [Hrun|[(e & Hrun & _)|(names & f & _ & _ & _ & Hrun)]].
  - rewrite Hrun. by left.
  - rewrite Hrun. right. left. by exists e.
  - right. right. split; [done|]. exists (path_join MEDIA_FOLDER f).
    simpl in Hrun. rewrite Hrun.
    by destruct (api_media_upload host (XWorld w ups reqs) (path_join MEDIA_FOLDER f))
      as [[|c id]|e].
Qed.

(** The post of the broadcast and its log line. *)
Lemma broadcast_post_run message kind media_ids x :
  ∃ r tail,
    (let+ ok := lift (safe_post_tweet env message media_ids None) in
     if ok then lift (logging INFO (msg_broadcast_sent kind))
     else lift (logging ERROR msg_broadcast_failed)) x
    = (r, XWorld
            (World (fs (base x))
               (trace (base x)
                  ++ ECreateTweet (v2_kwargs (truncate_text message None) media_ids None)
                  :: tail))
            (uploads x) (llm_requests x)) ∧
    Forall (λ ev, ∀ kw, ev ≠ ECreateTweet kw) tail.
Proof.
  destruct (safe_post_tweet_events env message media_ids None (base x))
    as (r & tail & Hrun & Htail).
  assert (Hquiet : Forall (λ ev, ∀ kw, ev ≠ ECreateTweet kw) tail).
  { eapply Forall_impl; [exact Htail|]. intros ev [Hlog| ->] kw; [|done].
    by intros ->. }
  unfold xbind, lift, logging, emit. rewrite Hrun.
  destruct r as [[]|e]; simpl.
  - eexists _, (tail ++ [_]). rewrite <- app_assoc. split; [done|].
    apply Forall_app. split; [done|]. by repeat constructor.
  - eexists _, (tail ++ [_]). rewrite <- app_assoc. split; [done|].
    apply Forall_app. split; [done|]. by repeat constructor.
  - by eexists _, tail.
Qed.

(** X18. A broadcast attaches media only on a draw above 0.4, and then
    at most one: on a draw of 0.4 or less nothing is uploaded and the
    post, the first thing the broadcast does, carries no media; in every
    case at most one file is uploaded, and a post made with media
    carries exactly one identifier, not empty, which is what the one
    upload of this broadcast returned. *)
Theorem broadcast_attaches_one_upload message kind x :
  let run := bot_broadcast env host message kind in
  (wants_media (random_random env (trace (base x))) = false →
     uploads (xafter run x) = uploads x ∧
     ∃ rest, xevents_of run x
             = ECreateTweet (v2_kwargs (truncate_text message None) None None) :: rest) ∧
  (length (uploads (xafter run x)) ≤ S (length (uploads x)))%nat ∧
  (∀ kw, ECreateTweet kw ∈ xevents_of run x →
     kw_text kw = truncate_text message None ∧
     (kw_media_ids kw = None ∨
      ∃ c id media_path,
        kw_media_ids kw = Some [c :: id] ∧
        uploads (xafter run x) = uploads x ++ [media_path] ∧
        api_media_upload host x media_path = Return (c :: id))).
Proof.
  intros run. subst run. unfold xafter, xevents_of, xafter.
  assert (Hsplit : bot_broadcast env host message kind x
            = match broadcast_media env host x with
              | (Return media_ids, x') =>
                  (let+ ok := lift (safe_post_tweet env message media_ids None) in
                   if ok then lift (logging INFO (msg_broadcast_sent kind))
                   else lift (logging ERROR msg_broadcast_failed)) x'
              | (Raise e, x') => (Raise e, x')
              end) by reflexivity.
  rewrite Hsplit. clear Hsplit.
  destruct (broadcast_media_cases x) as [Hmedia|[(e & Hmedia)|(Hroll & path & Hmedia)]].
  - rewrite Hmedia.
    destruct (broadcast_post_run message kind None x) as (r & tail & -> & Htail).
    simpl. rewrite drop_app_length. split; [eauto|]. split; [lia|].
    intros kw [[= ->]|Hin]%elem_of_cons; [by split; [|left]|].
    rewrite Forall_forall in Htail. by destruct (Htail _ Hin kw).
  - rewrite Hmedia. simpl. rewrite drop_all. split.
    + intros Hroll. exfalso. revert Hmedia.
      destruct x as [w ups reqs]. unfold broadcast_media, xbind, lift. simpl in *.
      by rewrite Hroll.
    + split; [lia|]. by intros kw ?%elem_of_nil.
  - split; [by rewrite Hroll|]. simpl in Hmedia.
    destruct (api_media_upload host x path) as [[|c id]|e] eqn:Hupload;
      rewrite Hmedia;
      match goal with
      | |- context [xbind (lift (safe_post_tweet env message ?ids None)) _ ?x'] =>
          destruct (broadcast_post_run message kind ids x')
            as (r & tail & -> & Htail)
      end; simpl; rewrite ?length_app; simpl; (split; [lia|]);
      rewrite <- ?app_assoc, drop_app_length; simpl.
    + intros kw [[= ->]|Hin]%elem_of_cons; [by split; [|left]|].
      rewrite Forall_forall in Htail. by destruct (Htail _ Hin kw).
    + intros kw [[= ->]|Hin]%elem_of_cons; [split; [done|right; by eexists _, _, _]|].
      rewrite Forall_forall in Htail. by destruct (Htail _ Hin kw).
    + intros kw [[= ]|[[= ->]|Hin]%elem_of_cons]%elem_of_cons; [by split; [|left]|].
      rewrite Forall_forall in Htail. by destruct (Htail _ Hin kw).
Qed.

End HostedProperties.

(** ** Calls per mention *)

(** Reads the events of a finished turn off the goal and counts them. *)
Ltac count_turn :=
  simpl; eexists; split; [by rewrite <- ?app_assoc | simpl; lia].

Section CallCounts.

Context (env : Env).

(** What one turn adds to the trace: at most one post on each surface
    and at most one like. *)
Lemma turn_call_counts me processed m w :
  ∃ evs,
    trace (after (respond_to_mention env me processed m) w) = trace w ++ evs ∧
    (count is_v2_post evs ≤ 1 ∧ count is_v1_post evs ≤ 1 ∧
     count is_like evs ≤ count is_v2_post evs)%nat.
Proof.
  unfold after, respond_to_mention. case_bool_decide as Hseen.
  { exists []. simpl. rewrite app_nil_r. split; [done|]. simpl. lia. }
  unfold bind, get_user, generate_contextual_response, like, external, logging, emit.
  simpl.
  destruct (api_get_user env (trace w) (author_id m)) as [[author|]|e];
    [|count_turn..].
  destruct (compose_reply env _ _ _) as [response|e]; [|count_turn].
  rewrite safe_post_tweet_run. simpl.
  match goal with
  | |- context [api_create_tweet env ?h ?kw] =>
      destruct (api_create_tweet env h kw) as [[]|e]
  end; simpl.
  - destruct (api_like env _ _); count_turn.
  - destruct (isinstance TweepyException e); simpl; [|count_turn].
    destruct (is_quota_error (lower env (exn_str e))); simpl; [|count_turn].
    match goal with
    | |- context [api_update_status env ?h ?kw] =>
        destruct (api_update_status env h kw) as [[]|e1]
    end; simpl; [destruct (api_like env _ _)|]; count_turn.
Qed.

(** X19. The loop makes at most one v2 post, one fallback post and one
    like per mention of the batch, and never more likes than v2 posts. *)
Theorem loop_calls_are_bounded_by_batch me processed mentions w :
  let evs := events_of (for_each_mention env me processed mentions) w in
  (count is_v2_post evs ≤ length mentions ∧
   count is_v1_post evs ≤ length mentions ∧
   count is_like evs ≤ count is_v2_post evs)%nat.
Proof.
  intros evs. subst evs.
  assert (Hloop : ∃ evs,
            trace (after (for_each_mention env me processed mentions) w) = trace w ++ evs ∧
            (count is_v2_post evs ≤ length mentions ∧
             count is_v1_post evs ≤ length mentions ∧
             count is_like evs ≤ count is_v2_post evs)%nat).
  { revert processed w. induction mentions as [|m rest IH]; intros processed w.
    - exists []. simpl. rewrite app_nil_r. split; [done|]. simpl. lia.
    - destruct (turn_call_counts me processed m w) as (evs1 & Ht1 & Hc1).
      unfold after in *. simpl. unfold bind.
      destruct (respond_to_mention env me processed m w) as [[p1|e] w1]; simpl in Ht1.
      + destruct (IH p1 w1) as (evs2 & Ht2 & Hc2).
        exists (evs1 ++ evs2). rewrite Ht2, Ht1, app_assoc. split; [done|].
        rewrite !count_app. simpl. lia.
      + exists evs1. split; [done|]. simpl. lia. }
  destruct Hloop as (evs & Ht & Hcounts).
  unfold events_of. by rewrite Ht, drop_app_length.
Qed.

End CallCounts.

(** ** The further properties at concrete inputs *)

Lemma save_then_load_round_trip_witness :
  outcome (save_json_set env_ok {[py "42"; py "43"]} PROCESSED_MENTIONS_FILE;;
           load_json_set env_ok PROCESSED_MENTIONS_FILE) empty_world
  = Return {[py "42"; py "43"]}.
Proof.
  apply (save_then_load_round_trip env_ok {[py "42"; py "43"]}
           PROCESSED_MENTIONS_FILE empty_world); reflexivity.
Defined.

Lemma save_json_set_leaves_other_files_witness :
  fs (after (save_json_set env_disk_full {[py "43"]} PROCESSED_MENTIONS_FILE)
        world_seen_42) !! notes_file
  = fs world_seen_42 !! notes_file.
Proof.
  apply (save_json_set_leaves_other_files env_disk_full {[py "43"]}
           PROCESSED_MENTIONS_FILE notes_file world_seen_42);
    vm_compute; discriminate.
Defined.

Lemma persisted_identifiers_accumulate_witness :
  ∃ items',
    fs (after (bot_respond env_two_mentions) world_seen_42) !! PROCESSED_MENTIONS_FILE
      = Some (JsonArray items') ∧
    ∀ s, s ∈ [py "42"] → s ∈ items'.
Proof.
  assert (∃ p w3, loop_completes env_two_mentions world_seen_42 p w3)
    as (p & w3 & Hdone).
  { eexists _, _, _, _, _, _, _, _.
    split; [reflexivity|]. split; [reflexivity|]. split; [reflexivity|].
    split; [done|]. reflexivity. }
  exists (elements p).
  exact (persisted_identifiers_accumulate env_two_mentions world_seen_42 [py "42"]
           p w3 eq_refl Hdone eq_refl).
Defined.

Lemma answered_mention_is_not_answered_twice_witness :
  Forall (λ ev, replies_to ev ≠ Some 43)
    (events_of
       (for_each_mention env_two_mentions bot_user ({[str_of_int 43]} ∪ ∅) [mention_43])
       (after (respond_to_mention env_two_mentions bot_user ∅ mention_43) empty_world)).
Proof.
  apply (answered_mention_is_not_answered_twice env_two_mentions bot_user ∅ mention_43
           [mention_43] empty_world).
  - reflexivity.
  - vm_compute. find_in_list.
Defined.

Lemma known_event_runs_its_handler_witness :
  game_event_bridge update_handlers win_event empty_world
  = settle win_event (post_update env_ok (py "ada wins the grid") empty_world).
Proof.
  pose proof (known_event_runs_its_handler update_handlers
                [(py "type", JStr (py "win")); (py "player", JStr (py "ada"))]
                (JStr (py "win")) empty_world eq_refl) as [Hwin _].
  exact (Hwin eq_refl).
Defined.

Lemma non_object_event_is_logged_witness :
  game_event no_handlers (Json (JArr [JInt 1])) empty_world
  = (Return (ok_body, 200),
     log_event ERROR
       (msg_bridge_error (Exn AttributeError (py "object has no attribute 'get'")))
       empty_world).
Proof.
  pose proof (non_object_event_is_logged no_handlers (JArr [JInt 1]) empty_world I)
    as [_ Hview].
  exact (Hview eq_refl).
Defined.

Lemma long_activation_message_loses_link_witness :
  len (activation_text long_text) = 285 ∧
  Forall (λ t, t = take 260 long_text ++ ELLIPSIS)
    (posted_texts (events_of (activation env_ok [long_text]) empty_world)).
Proof.
  pose proof (long_activation_message_loses_link env_ok [long_text] long_text
                empty_world eq_refl eq_refl) as (Hlen & _ & Hposted & _).
  split; [exact Hlen | exact Hposted].
Defined.

Lemma no_media_file_no_upload_witness :
  get_random_media_id env_ok host_without_media empty_xworld
  = (Return None, empty_xworld).
Proof.
  apply no_media_file_no_upload. right. exists [py "notes.txt"].
  split; [reflexivity|]. by repeat constructor.
Defined.

(** A file whose extension is written in capitals is taken, and its
    path is the folder followed by the name. *)
Example capital_extension_is_uploaded :
  get_random_media_id env_ok host_with_media empty_xworld
  = (Return (Some (py "1900")),
     XWorld empty_world [py "media/board.PNG"] []).
Proof. vm_compute. reflexivity. Qed.

(** With a token set, the answer of the service is returned stripped. *)
Example generated_text_is_stripped :
  xoutcome (generate_llm_response host_with_token (py "hello") 100) empty_xworld
  = Return (Some (py "Your move.")).
Proof. vm_compute. reflexivity. Qed.

(** With all five credentials the module loads; without the bearer
    token it does not, and the message names it. *)
Example credentials_examples :
  validate_credentials all_credentials = Return () ∧
  validate_credentials (delete (py "BEARER_TOKEN") all_credentials)
  = Raise (Exn OtherException
             (py "Missing required environment variables: BEARER_TOKEN")).
Proof. split; vm_compute; reflexivity. Qed.

(** A save that broke after opening the file leaves it emptied, and the
    next cycle ends at the load, before any call to the platform. *)
Example emptied_file_stops_the_next_cycle :
  let w' := after (save_json_set env_disk_full {[py "42"; py "43"]}
                     PROCESSED_MENTIONS_FILE) world_seen_42 in
  outcome (bot_respond env_two_mentions) w'
  = Raise (Exn JSONDecodeError (py "Expecting value")) ∧
  events_of (bot_respond env_two_mentions) w' = [EOpen PROCESSED_MENTIONS_FILE ReadMode].
Proof. split; vm_compute; reflexivity. Qed.

(** A request without JSON content type, on a framework that answers it
    with 415: the view does not get to its own test. *)
Example request_without_json_type_is_aborted :
  let e := Exn UnsupportedMediaType (py "415 Unsupported Media Type") in
  game_event no_handlers (Aborted e) empty_world = (Raise e, empty_world) ∧
  http_status (outcome (game_event no_handlers (Aborted e)) empty_world) = 415.
Proof. split; reflexivity. Qed.
